(** * JobAI python-service: job aggregation and fit scoring

    A shallow embedding of [services/job_scraper.py], [services/ai_matcher.py]
    and the two endpoints of [main.py], with the properties of the
    specification stated over it.

    Conventions of the embedding.
    - A Python [str] is a [string] of one-byte characters; the character
      classes ([str.isspace], [str.lower], digits) are those of ASCII.
    - A Python [int] is a [Z]; list positions and lengths are [nat].
    - A job dictionary ([Dict[str, Any]]) is a [gmap string pyval]: a key
      may be absent, and its value is a string, [None], a list or another
      dictionary. Numbers and booleans are left out: what the validation of
      a [str] field does with them (conversion or rejection) depends on the
      release of pydantic, which the repository does not fix.
    - An item of the structured API is a [gmap string jsonval]: the fields
      the code reads are strings or [null].
    - A raised exception is the [Raise] alternative of [result];
      [try ... except Exception] is [try_except]. Exceptions of the
      interpreter itself (memory, cancellation) are not modelled.
    - The outside world (environment variables, HTTP replies, the parsed
      HTML page, the replies of the language model, the draws of [random])
      is a record passed to the operation that consults it.
    - [asyncio.sleep] and logging change no value and are left out.

    Layout: the primitives of Python the code uses ([Py]), the three
    source files ([JobScraper], [AIMatcher], [Main]), the vocabulary of
    the properties, then the lemmas and the properties themselves: first
    those of the specification (C1 to C10), then further properties of the
    same code (X1 to X21). C4, which speaks of the replies of a provider,
    stands with the lemmas on those replies. *)

From Stdlib Require Import ZArith Ascii String List Lia Permutation Sorted.
From stdpp Require Import base option list gmap strings pretty.

Open Scope Z_scope.

(** ** Python primitives *)

Module Py.

(** [str.isspace] on the ASCII range: TAB..CR, FS..US and the space. *)
Definition isspace (c : ascii) : bool :=
  let n := nat_of_ascii c in
  (Nat.leb 9 n && Nat.leb n 13) || (Nat.leb 28 n && Nat.leb n 32).

Definition isupper (c : ascii) : bool :=
  let n := nat_of_ascii c in Nat.leb 65 n && Nat.leb n 90.

Definition islower (c : ascii) : bool :=
  let n := nat_of_ascii c in Nat.leb 97 n && Nat.leb n 122.

Definition isdigit (c : ascii) : bool :=
  let n := nat_of_ascii c in Nat.leb 48 n && Nat.leb n 57.

Definition lower_char (c : ascii) : ascii :=
  if isupper c then ascii_of_nat (nat_of_ascii c + 32) else c.

Definition upper_char (c : ascii) : ascii :=
  if islower c then ascii_of_nat (nat_of_ascii c - 32) else c.

(** [s.lower()] *)
Fixpoint lower (s : string) : string :=
  match s with
  | EmptyString => EmptyString
  | String c s' => String (lower_char c) (lower s')
  end.

(** [s.title()]: a letter that follows a letter is lowered, any other
    letter is raised. *)
Fixpoint title_from (prev_cased : bool) (s : string) : string :=
  match s with
  | EmptyString => EmptyString
  | String c s' =>
      if isupper c || islower c
      then String (if prev_cased then lower_char c else upper_char c)
                  (title_from true s')
      else String c (title_from false s')
  end.

Definition title (s : string) : string := title_from false s.

Fixpoint lstrip (s : string) : string :=
  match s with
  | EmptyString => EmptyString
  | String c s' => if isspace c then lstrip s' else s
  end.

Definition rstrip (s : string) : string :=
  String.rev (lstrip (String.rev s)).

(** [s.strip()] *)
Definition strip (s : string) : string := rstrip (lstrip s).

(** [s[:n]] for a literal [n >= 0]. *)
Fixpoint str_take (n : nat) (s : string) : string :=
  match n, s with
  | S n', String c s' => String c (str_take n' s')
  | _, _ => EmptyString
  end.

(** [s[n:]] *)
Fixpoint str_drop (n : nat) (s : string) : string :=
  match n, s with
  | S n', String _ s' => str_drop n' s'
  | _, _ => s
  end.

(** [sub in s] *)
Fixpoint contains (sub s : string) : bool :=
  String.prefix sub s ||
  match s with
  | EmptyString => false
  | String _ s' => contains sub s'
  end.

(** [s.split(sep)] for a non-empty [sep]: the pieces between the
    occurrences of [sep], found left to right without overlap. [cur]
    holds the current piece reversed; [skip] counts the characters of a
    separator still to be passed over. *)
Fixpoint split_from (sep : string) (skip : nat) (cur : string) (s : string)
  : list string :=
  match s with
  | EmptyString => [String.rev cur]
  | String c s' =>
      match skip with
      | S k => split_from sep k cur s'
      | O =>
          if String.prefix sep s
          then String.rev cur
                 :: split_from sep (String.length sep - 1) EmptyString s'
          else split_from sep O (String c cur) s'
      end
  end.

Definition split (sep s : string) : list string :=
  split_from sep O EmptyString s.

(** [sep.join(parts)] *)
Fixpoint join (sep : string) (parts : list string) : string :=
  match parts with
  | [] => EmptyString
  | [p] => p
  | p :: ps => p +:+ sep +:+ join sep ps
  end.

(** The digits of an [int] literal: decimal digits, single underscores
    allowed between two digits only. *)
Fixpoint int_digits (acc : Z) (after_digit : bool) (s : string) : option Z :=
  match s with
  | EmptyString => if after_digit then Some acc else None
  | String c s' =>
      if isdigit c
      then int_digits (10 * acc + (Z.of_nat (nat_of_ascii c) - 48)) true s'
      else if Ascii.eqb c "_"%char
           then (if after_digit then int_digits acc false s' else None)
           else None
  end.

(** [int(s)]: [None] stands for [ValueError]. *)
Definition int (s : string) : option Z :=
  match strip s with
  | String "-"%char r => Z.opp <$> int_digits 0 false r
  | String "+"%char r => int_digits 0 false r
  | t => int_digits 0 false t
  end.

(** [str(n)] for a non-negative [n]. *)
Definition str_of_nat (n : nat) : string := pretty n.

(** [l[:k]]: a negative [k] counts from the end. *)
Definition slice_to {A} (k : Z) (l : list A) : list A :=
  if 0 <=? k then take (Z.to_nat k) l
  else take (length l - Z.to_nat (- k)) l.

(** [range(0, stop, step)] for a positive [step]. *)
Definition range_step (stop step : nat) : list nat :=
  (λ k, k * step)%nat <$> seq 0 ((stop + step - 1) / step)%nat.

(** [bool(s)] of a string. *)
Definition truthy (s : string) : bool :=
  match s with EmptyString => false | _ => true end.

(** The double-quote character, for literals that hold one. *)
Definition dquote : string := String (ascii_of_nat 34) EmptyString.

(** The line feed. *)
Definition nl : string := String (ascii_of_nat 10) EmptyString.

(** [l.sort(key=key, reverse=True)]: the built-in sort is stable, also
    when reversed, which fixes its result: the elements by decreasing key,
    those of equal key in their order in [l]. Insertion from the right,
    each element placed before the first one whose key is not greater,
    builds that list. *)
Fixpoint insert_desc {A} (key : A → Z) (x : A) (l : list A) : list A :=
  match l with
  | [] => [x]
  | y :: l' => if key x <? key y then y :: insert_desc key x l' else x :: l
  end.

Definition sort_reverse {A} (key : A → Z) (l : list A) : list A :=
  foldr (insert_desc key) [] l.

End Py.

(** ** Exceptions *)

Inductive exn : Type :=
  | KeyError (key : string)
  | AttributeError
  | TypeError
  | ValidationError
  | ImportError
  | RequestError
  | ProviderError
  | HTTPException (status : Z) (detail : string).

Inductive result (A : Type) : Type :=
  | Ok (a : A)
  | Raise (e : exn).
Arguments Ok {A} a.
Arguments Raise {A} e.

#[export] Instance result_ret : MRet result := λ A a, Ok a.
#[export] Instance result_bind : MBind result := λ A B f m,
  match m with
  | Ok a => f a
  | Raise e => Raise e
  end.

(** [try: body except Exception as e: handler(e)] *)
Definition try_except {A} (body : result A) (handler : exn → result A)
  : result A :=
  match body with
  | Ok a => Ok a
  | Raise e => handler e
  end.

(** A value stored in a job dictionary: a string, [None], a list or a
    dictionary. The code never looks inside a list or a dictionary: it
    formats it, slices it or hands it to the validation of [ScoredJob]. So
    a list is given by the text [str] makes of it and of its first 500
    elements, a dictionary by its text. *)
Inductive pyval : Type :=
  | PStr (s : string)
  | PNone
  | PList (text head : string)
  | PDict (text : string).

(** A job dictionary. *)
Abbreviation job := (gmap string pyval).

(** A field of an item of the structured API, and an item. *)
Inductive jsonval : Type :=
  | JStr (s : string)
  | JNull.

Abbreviation item := (gmap string jsonval).

Definition of_json (v : jsonval) : pyval :=
  match v with
  | JStr s => PStr s
  | JNull => PNone
  end.

(** [d[k]] *)
Definition subscript (d : job) (k : string) : result pyval :=
  match d !! k with
  | Some v => Ok v
  | None => Raise (KeyError k)
  end.

(** [d.get(k, default)] *)
Definition get_default (d : job) (k : string) (dflt : pyval) : pyval :=
  default dflt (d !! k).

(** [d.get(k)] *)
Definition get (d : job) (k : string) : pyval := get_default d k PNone.

(** [job_data.get(k, default)] and [job_data.get(k)] on an item. *)
Definition item_get_default (d : item) (k : string) (dflt : pyval) : pyval :=
  match d !! k with
  | Some v => of_json v
  | None => dflt
  end.

Definition item_get (d : item) (k : string) : pyval :=
  item_get_default d k PNone.

(** A method of [str] applied to a value: no other value has such an
    attribute. *)
Definition str_method (f : string → string) (v : pyval) : result string :=
  match v with
  | PStr s => Ok (f s)
  | PNone | PList _ _ | PDict _ => Raise AttributeError
  end.

(** [bool(v)]: an empty string, [None], an empty list and an empty
    dictionary are false. *)
Definition truthy_val (v : pyval) : bool :=
  match v with
  | PStr s => Py.truthy s
  | PNone => false
  | PList text _ => negb (String.eqb text "[]")
  | PDict text => negb (String.eqb text "{}")
  end.

(** [a or b] *)
Definition py_or (a b : pyval) : pyval := if truthy_val a then a else b.

(** The string a value formats to inside an f-string. *)
Definition format_val (v : pyval) : string :=
  match v with
  | PStr s => s
  | PNone => "None"
  | PList text _ => text
  | PDict text => text
  end.

(** [random.choice(seq)] given the draw made by the generator. *)
Definition choice (seq : list string) (draw : nat) : string :=
  nth (draw mod length seq) seq EmptyString.

(** ** services/job_scraper.py *)

Module JobScraper.

(** What the GET on the structured API does: it raises, or it answers
    with a status and the list under ["data"] of its JSON body (empty
    when the key is absent). *)
Inductive jsearch_reply : Type :=
  | JsearchRaises
  | JsearchAnswers (status : Z) (data : list item).

(** A job card of the parsed page: for a CSS selector, the text nodes of
    the first element [select_one] finds, and the [data-jk] attribute. *)
Record card : Type := {
  select_one : string → option (list string);
  data_jk : option string
}.

(** What the Indeed step meets: [bs4] cannot be imported, the request
    raises, or a page is parsed, on which [select] finds cards. *)
Inductive indeed_reply : Type :=
  | IndeedImportFails
  | IndeedRequestRaises
  | IndeedPage (select : string → list card).

Record env : Type := {
  jsearch_api_key : option string;
  jsearch : jsearch_reply;
  indeed : indeed_reply;
  draws : nat → nat
}.

(** [if self.jsearch_api_key] *)
Definition has_api_key (e : env) : bool :=
  match jsearch_api_key e with
  | Some k => Py.truthy k
  | None => false
  end.

Definition make_job (title company description : string)
    (location source_url : pyval) (source : string) : job :=
  <["title" := PStr title]>
    (<["company" := PStr company]>
       (<["description" := PStr (Py.str_take 1000 description)]>
          (<["location" := location]>
             (<["source_url" := source_url]>
                (<["source" := PStr source]> ∅))))).

Definition default_description (company title : string) : string :=
  "Job opportunity at " +:+ company +:+ " for " +:+ title +:+ " position.".

(** The location parts that pass [if loc] are strings there ([null] does
    not pass), so [", ".join] does not raise. *)
Definition _parse_jsearch_job (job_data : item) : result (option job) :=
  try_except
    (title ← str_method Py.strip (item_get_default job_data "job_title" (PStr ""));
     company ← str_method Py.strip (item_get_default job_data "employer_name" (PStr ""));
     description ← str_method Py.strip (item_get_default job_data "job_description" (PStr ""));
     let location := item_get_default job_data "job_city" (PStr "") in
     let state := item_get_default job_data "job_state" (PStr "") in
     let country := item_get_default job_data "job_country" (PStr "") in
     let location_parts :=
       format_val <$> filter (λ loc, truthy_val loc = true) [location; state; country] in
     let full_location := Py.join ", " location_parts in
     let source_url :=
       py_or (item_get job_data "job_apply_link")
         (item_get_default job_data "job_url" (PStr "")) in
     if negb (Py.truthy title) || negb (Py.truthy company) then Ok None
     else
       let description :=
         if negb (Py.truthy description) then default_description company title
         else description in
       Ok (Some (make_job title company description (PStr full_location)
                   source_url "jsearch")))
    (λ _, Ok None).

(** The loop over the items (or the cards): an item that parses to a job
    is appended, one that parses to [None] or raises is skipped. *)
Fixpoint collect {A} (parse : A → result (option job)) (items : list A)
    (jobs : list job) : list job :=
  match items with
  | [] => jobs
  | item :: rest =>
      match parse item with
      | Ok (Some j) => collect parse rest (jobs ++ [j])
      | Ok None | Raise _ => collect parse rest jobs
      end
  end.

Definition _scrape_jsearch_jobs (e : env) (keyword location : string)
    (limit : Z) : result (list job) :=
  try_except
    (if negb (has_api_key e) then Ok []
     else
       match jsearch e with
       | JsearchRaises => Raise RequestError
       | JsearchAnswers status jobs_data =>
           if status =? 200
           then Ok (collect _parse_jsearch_job (Py.slice_to limit jobs_data) [])
           else Ok []
       end)
    (λ _, Ok []).

(** [elem.get_text(strip=True)]: the text nodes stripped, the empty ones
    dropped, the rest concatenated. *)
Definition get_text_strip (nodes : list string) : string :=
  Py.join "" (filter (λ s, Py.truthy s = true) (Py.strip <$> nodes)).

(** The loops over a list of selectors inside a card: the text of the
    first selector that finds an element, [""] when none does. *)
Fixpoint first_text (c : card) (selectors : list string) : string :=
  match selectors with
  | [] => ""
  | selector :: rest =>
      match select_one c selector with
      | Some nodes => get_text_strip nodes
      | None => first_text c rest
      end
  end.

Definition title_selectors : list string :=
  ["h2.jobTitle a span"; "h2.jobTitle span"; ".jobTitle a";
   "[data-testid=" +:+ Py.dquote +:+ "job-title" +:+ Py.dquote +:+ "]"].

Definition company_selectors : list string :=
  [".companyName";
   "[data-testid=" +:+ Py.dquote +:+ "company-name" +:+ Py.dquote +:+ "]";
   ".company"].

Definition location_selectors : list string :=
  [".companyLocation";
   "[data-testid=" +:+ Py.dquote +:+ "job-location" +:+ Py.dquote +:+ "]";
   ".location"].

Definition summary_selectors : list string :=
  [".summary"; ".job-snippet";
   "[data-testid=" +:+ Py.dquote +:+ "job-snippet" +:+ Py.dquote +:+ "]"].

Definition _extract_indeed_job_from_card (c : card) : result (option job) :=
  try_except
    (let title := first_text c title_selectors in
     let company := first_text c company_selectors in
     let location := first_text c location_selectors in
     let description := first_text c summary_selectors in
     let source_url :=
       match data_jk c with
       | Some job_key =>
           if Py.truthy job_key
           then "https://www.indeed.com/viewjob?jk=" +:+ job_key
           else ""
       | None => ""
       end in
     if negb (Py.truthy title) || negb (Py.truthy company) then Ok None
     else
       let description :=
         if negb (Py.truthy description) then default_description company title
         else description in
       Ok (Some (make_job title company description (PStr location)
                   (PStr source_url) "indeed")))
    (λ _, Ok None).

Definition job_selectors : list string :=
  ["div[data-jk]"; ".job_seen_beacon"; ".jobsearch-SerpJobCard";
   ".slider_container .slider_item"].

(** The loop over [job_selectors]: the cards of the first selector that
    finds some, the empty list when none does. *)
Fixpoint first_cards (select : string → list card) (selectors : list string)
  : list card :=
  match selectors with
  | [] => []
  | selector :: rest =>
      match select selector with
      | [] => first_cards select rest
      | job_cards => job_cards
      end
  end.

(** The search URL is built from the arguments and fetched after one
    randomised pause; the reply is the one of the environment. *)
Definition _scrape_indeed_jobs (e : env) (keyword location : string)
    (limit : Z) : result (list job) :=
  try_except
    (match indeed e with
     | IndeedImportFails => Raise ImportError
     | IndeedRequestRaises => Raise RequestError
     | IndeedPage select =>
         match first_cards select job_selectors with
         | [] => Ok []
         | job_cards =>
             Ok (collect _extract_indeed_job_from_card
                   (Py.slice_to limit job_cards) [])
         end
     end)
    (λ _, Ok []).

(** The key of [_remove_duplicates]:
    [f"{job['title'].lower().strip()}|{job['company'].lower().strip()}"] *)
Definition dedup_key (j : job) : result string :=
  title ← subscript j "title";
  title ← str_method Py.lower title;
  company ← subscript j "company";
  company ← str_method Py.lower company;
  Ok (Py.strip title +:+ "|" +:+ Py.strip company).

Fixpoint remove_duplicates_loop (seen : gset string) (unique_jobs : list job)
    (jobs : list job) : result (list job) :=
  match jobs with
  | [] => Ok unique_jobs
  | j :: rest =>
      key ← dedup_key j;
      if decide (key ∈ seen)
      then remove_duplicates_loop seen unique_jobs rest
      else remove_duplicates_loop ({[key]} ∪ seen) (unique_jobs ++ [j]) rest
  end.

Definition _remove_duplicates (jobs : list job) : result (list job) :=
  remove_duplicates_loop ∅ [] jobs.

Definition companies : list string :=
  ["TechCorp"; "InnovateLab"; "DataSoft"; "CloudSystems"; "AIStartup";
   "DevStudio"; "CodeCraft"; "ByteDance"; "TechFlow"; "DigitalHub";
   "Microsoft"; "Google"; "Amazon"; "Meta"; "Apple"].

Definition job_types : list string :=
  ["Senior"; "Junior"; "Lead"; "Principal"; "Staff"].

Definition cities : list string :=
  ["San Francisco, CA"; "New York, NY"; "Seattle, WA"; "Austin, TX"; "Remote"].

Definition mock_description (keyword company : string) : string :=
  "We are looking for a skilled " +:+ keyword +:+ " to join our team at "
    +:+ company +:+ ". "
    +:+ "The ideal candidate will have experience in " +:+ Py.lower keyword
    +:+ " and related technologies. "
    +:+ "This is a great opportunity to work with cutting-edge technology and grow your career. "
    +:+ "Responsibilities include developing software solutions, collaborating with cross-functional teams, "
    +:+ "and contributing to our innovative products.".

Definition mock_job (keyword company job_type location : string) (i : nat)
  : job :=
  <["title" := PStr (job_type +:+ " " +:+ Py.title keyword)]>
    (<["company" := PStr company]>
       (<["description" := PStr (mock_description keyword company)]>
          (<["location" := PStr location]>
             (<["source_url" :=
                  PStr ("https://example.com/job/" +:+ Py.str_of_nat (i + 1))]>
                (<["source" := PStr "mock"]> ∅))))).

(** The body of [for i in range(min(limit, 15))], [count] rounds from
    round [i] on; [n] draws of the generator have been used so far. The
    city is drawn only when [location] is empty. *)
Fixpoint mock_jobs_from (rnd : nat → nat) (keyword location : string)
    (n i count : nat) : list job :=
  match count with
  | O => []
  | S count' =>
      let company := choice companies (rnd n) in
      let job_type := choice job_types (rnd (n + 1)%nat) in
      let '(loc, n') :=
        if Py.truthy location then (location, (n + 2)%nat)
        else (choice cities (rnd (n + 2)%nat), (n + 3)%nat) in
      mock_job keyword company job_type loc i
        :: mock_jobs_from rnd keyword location n' (i + 1) count'
  end.

Definition _get_mock_jobs (rnd : nat → nat) (keyword location : string)
    (limit : Z) : list job :=
  mock_jobs_from rnd keyword location 0 0 (Z.to_nat (Z.min limit 15)).

(** The body of the [try] of [scrape_jobs]. *)
Definition aggregate (e : env) (keyword location : string) (limit : Z)
  : result (list job) :=
  jsearch_jobs ←
    (if has_api_key e then _scrape_jsearch_jobs e keyword location limit
     else Ok []);
  let all_jobs := jsearch_jobs in
  indeed_jobs ←
    (if Z.of_nat (length all_jobs) <? limit
     then
       let remaining := limit - Z.of_nat (length all_jobs) in
       _scrape_indeed_jobs e keyword location remaining
     else Ok []);
  let all_jobs := all_jobs ++ indeed_jobs in
  unique_jobs ← _remove_duplicates all_jobs;
  let final_jobs := Py.slice_to limit unique_jobs in
  Ok final_jobs.

Definition scrape_jobs (e : env) (keyword location : string) (limit : Z)
  : result (list job) :=
  try_except
    (aggregate e keyword location limit)
    (λ _, Ok (_get_mock_jobs (draws e) keyword location limit)).

(** [scrape_indeed_jobs], kept for backward compatibility. *)
Definition scrape_indeed_jobs (e : env) (keyword location : string)
    (limit : Z) : result (list job) :=
  scrape_jobs e keyword location limit.

End JobScraper.

(** ** models/job.py *)

Record ScoredJob : Type := {
  title : string;
  company : string;
  description : string;
  location : option string;
  source_url : option string;
  fit_score : Z;
  score_explanation : option string
}.

(** Validation of a required [str] field and of an [Optional[str]] one:
    the first takes a string, the second a string or [None]; a list or a
    dictionary is refused by both. *)
Definition required_str (v : pyval) : result string :=
  match v with
  | PStr s => Ok s
  | PNone | PList _ _ | PDict _ => Raise ValidationError
  end.

Definition optional_str (v : pyval) : result (option string) :=
  match v with
  | PStr s => Ok (Some s)
  | PNone => Ok None
  | PList _ _ | PDict _ => Raise ValidationError
  end.

(** ** services/ai_matcher.py *)

Module AIMatcher.

(** A configured client: the text it answers to the prompt of the batch
    that starts at a given position, unless the call raises. *)
Definition client : Type := nat → string → result string.

Record env : Type := {
  openai_client : option client;
  claude_client : option client;
  resume_reachable : bool
}.

Record profile : Type := {
  resume_content : string;
  skills : list string;
  experience : string
}.

(** [ScoredJob(title=job['title'], company=job['company'],
    description=job['description'], location=job.get('location'),
    source_url=job.get('source_url'), fit_score=score,
    score_explanation=explanation)]: the arguments are evaluated, then the
    model validates them. *)
Definition new_ScoredJob (j : job) (score : Z) (explanation : string)
  : result ScoredJob :=
  t ← subscript j "title";
  c ← subscript j "company";
  d ← subscript j "description";
  let l := get j "location" in
  let u := get j "source_url" in
  t ← required_str t;
  c ← required_str c;
  d ← required_str d;
  l ← optional_str l;
  u ← optional_str u;
  Ok {| title := t; company := c; description := d;
        location := l; source_url := u;
        fit_score := score; score_explanation := Some explanation |}.

Definition mock_explanation : string :=
  "Mock AI analysis: Good match based on job requirements and candidate profile.".

Definition mock_score (i : nat) : Z :=
  let base_score := 85 - Z.of_nat i * 3 in
  Z.max 40 (Z.min 95 (base_score + (Z.of_nat i mod 3) * 5)).

(** [for i, job in enumerate(jobs)] of [_generate_mock_scores], from
    position [i] on. *)
Fixpoint mock_scores_from (i : nat) (jobs : list job)
    (scored_jobs : list ScoredJob) : result (list ScoredJob) :=
  match jobs with
  | [] => Ok scored_jobs
  | j :: rest =>
      scored_job ← new_ScoredJob j (mock_score i) mock_explanation;
      mock_scores_from (i + 1) rest (scored_jobs ++ [scored_job])
  end.

Definition _generate_mock_scores (jobs : list job) : result (list ScoredJob) :=
  mock_scores_from 0 jobs [].

Definition _extract_resume_content (e : env) (resume_url : string) : string :=
  if resume_reachable e
  then "Resume content extracted successfully. Skills and experience available for matching."
  else "Resume content not available for analysis.".

(** [job['description'][:500]], as the f-string then formats it: a string
    and a list can be sliced, [None] and a dictionary cannot (the caller
    catches the error whatever its class). *)
Definition description_head (v : pyval) : result string :=
  match v with
  | PStr s => Ok (Py.str_take 500 s)
  | PList _ head => Ok head
  | PNone | PDict _ => Raise TypeError
  end.

Definition prompt_head (p : profile) : string :=
  let skills_str :=
    match skills p with
    | [] => "Not specified"
    | _ => Py.join ", " (skills p)
    end in
  Py.join Py.nl
    [""; "Please analyze the following job postings against this candidate's profile and provide fit scores from 0-100 for each job.";
     "";
     "CANDIDATE PROFILE:";
     "Skills: " +:+ skills_str;
     "Experience: " +:+ experience p;
     "Resume: " +:+ resume_content p;
     "";
     "JOBS TO SCORE:";
     ""].

Definition prompt_job (i : nat) (j : job) : result string :=
  t ← subscript j "title";
  c ← subscript j "company";
  d ← subscript j "description";
  d ← description_head d;
  Ok (Py.join Py.nl
        [""; "Job " +:+ Py.str_of_nat i +:+ ":";
         "Title: " +:+ format_val t;
         "Company: " +:+ format_val c;
         "Description: " +:+ d +:+ "...";
         "Location: " +:+ format_val (get_default j "location" (PStr "Not specified"));
         ""; ""]).

Definition prompt_tail : string :=
  Py.join Py.nl
    [""; "For each job, provide a score from 0-100 where:";
     "- 90-100: Excellent match (perfect skills alignment, ideal role)";
     "- 80-89: Very good match (strong skills overlap, good role fit)";
     "- 70-79: Good match (decent skills alignment, some missing elements)";
     "- 60-69: Fair match (some relevant skills, role partially suitable)";
     "- 50-59: Below average match (limited relevance)";
     "- 0-49: Poor match (little to no alignment)";
     "";
     "Respond in this exact format for each job:";
     "Job 1: [score] - [brief explanation]";
     "Job 2: [score] - [brief explanation]";
     "etc.";
     ""].

(** [for i, job in enumerate(jobs, 1): prompt += ...] *)
Fixpoint prompt_jobs (i : nat) (jobs : list job) (prompt : string)
  : result string :=
  match jobs with
  | [] => Ok prompt
  | j :: rest =>
      block ← prompt_job i j;
      prompt_jobs (i + 1) rest (prompt +:+ block)
  end.

Definition _create_scoring_prompt (p : profile) (jobs : list job)
  : result string :=
  prompt ← prompt_jobs 1 jobs (prompt_head p);
  Ok (prompt +:+ prompt_tail).

(** What a line that holds the tag of a job gives: the score and the
    explanation, or nothing when it has no [" - "] or when the guarded
    statements raise ([IndexError] of [split(':')[1]], [ValueError] of
    [int]). *)
Definition parse_line (line : string) : option (Z * string) :=
  match Py.split " - " line with
  | part0 :: part1 :: _ =>
      score_part ← Py.strip <$> (Py.split ":" part0 !! 1%nat);
      score ← Py.int score_part;
      Some (score, Py.strip part1)
  | _ => None
  end.

(** The inner [for line in lines]: the first line that holds
    ["Job {i+1}:"] decides, whatever it gives. *)
Definition score_for (lines : list string) (i : nat) : Z * string :=
  let tag := "Job " +:+ Py.str_of_nat (i + 1) +:+ ":" in
  let found :=
    match List.find (Py.contains tag) lines with
    | Some line => parse_line line
    | None => None
    end in
  let '(score, explanation) := default (50, "AI analysis completed") found in
  (Z.max 0 (Z.min 100 score), explanation).

Fixpoint parse_scores_from (lines : list string) (i : nat) (jobs : list job)
    (scored_jobs : list ScoredJob) : result (list ScoredJob) :=
  match jobs with
  | [] => Ok scored_jobs
  | j :: rest =>
      let '(score, explanation) := score_for lines i in
      scored_job ← new_ScoredJob j score explanation;
      parse_scores_from lines (i + 1) rest (scored_jobs ++ [scored_job])
  end.

Definition _parse_ai_scores (jobs : list job) (ai_response : string)
  : result (list ScoredJob) :=
  try_except
    (let lines := Py.split Py.nl (Py.strip ai_response) in
     parse_scores_from lines 0 jobs [])
    (λ _, _generate_mock_scores jobs).

(** [_score_with_openai] and [_score_with_claude] differ by the client
    they call only. *)
Definition _score_with (c : client) (start : nat) (p : profile)
    (jobs : list job) : result (list ScoredJob) :=
  try_except
    (prompt ← _create_scoring_prompt p jobs;
     response ← c start prompt;
     _parse_ai_scores jobs response)
    (λ _, _generate_mock_scores jobs).

Definition _score_job_batch (e : env) (start : nat) (p : profile)
    (jobs : list job) : result (list ScoredJob) :=
  try_except
    (match openai_client e with
     | Some c => _score_with c start p jobs
     | None =>
         match claude_client e with
         | Some c => _score_with c start p jobs
         | None => _generate_mock_scores jobs
         end
     end)
    (λ _, _generate_mock_scores jobs).

Definition batch_size : nat := 5.

(** [for i in range(0, len(jobs), batch_size)], over the starts left. *)
Fixpoint score_batches (e : env) (p : profile) (jobs : list job)
    (starts : list nat) (scored_jobs : list ScoredJob)
  : result (list ScoredJob) :=
  match starts with
  | [] => Ok scored_jobs
  | i :: rest =>
      let batch := take batch_size (drop i jobs) in
      batch_scores ← _score_job_batch e i p batch;
      score_batches e p jobs rest (scored_jobs ++ batch_scores)
  end.

Definition score_jobs (e : env) (resume_url : string) (jobs : list job)
    (user_skills : option (list string)) (user_experience : string)
  : result (list ScoredJob) :=
  try_except
    (let resume_content := _extract_resume_content e resume_url in
     let user_profile :=
       {| resume_content := resume_content;
          skills := default [] user_skills;
          experience := user_experience |} in
     score_batches e user_profile jobs
       (Py.range_step (length jobs) batch_size) [])
    (λ _, _generate_mock_scores jobs).

(** [__init__]: a client is built for each key that is set (a non-empty
    string); [openai] and [claude] are what the built clients answer. *)
Definition key_set (key : option string) : bool :=
  match key with
  | Some k => Py.truthy k
  | None => false
  end.

Definition init (openai_key claude_key : option string)
    (openai claude : client) (reachable : bool) : env :=
  {| openai_client := if key_set openai_key then Some openai else None;
     claude_client := if key_set claude_key then Some claude else None;
     resume_reachable := reachable |}.

Definition test_connection (e : env) : string :=
  match openai_client e with
  | Some _ => "OpenAI API connected"
  | None =>
      match claude_client e with
      | Some _ => "Claude API connected"
      | None => "No AI API configured - using mock data"
      end
  end.

End AIMatcher.

(** ** main.py *)

Module Main.

Record env : Type := {
  scraper : JobScraper.env;
  matcher : AIMatcher.env
}.

(** [str(e)] as far as the services raise: the key of a [KeyError], the
    status and detail of an [HTTPException]; other messages are not
    modelled. *)
Definition exn_str (e : exn) : string :=
  match e with
  | KeyError k => "'" +:+ k +:+ "'"
  | HTTPException status detail => pretty status +:+ ": " +:+ detail
  | _ => ""
  end.

Record scrape_response : Type := {
  jobs : list job;
  count : nat;
  keyword : string;
  location : string;
  sources : list string
}.

(** [GET /scrape_jobs] *)
Definition scrape_jobs (e : env) (keyword location : string) (limit : Z)
  : result scrape_response :=
  try_except
    (if negb (Py.truthy (Py.strip keyword))
     then Raise (HTTPException 400 "Keyword is required")
     else
       jobs ← JobScraper.scrape_jobs (scraper e) (Py.strip keyword)
                (Py.strip location) (Z.min limit 50);
       Ok {| jobs := jobs; count := length jobs; keyword := keyword;
             location := location;
             sources := ["jsearch"; "indeed"; "mock"] |})
    (λ e, Raise (HTTPException 500 ("Job scraping failed: " +:+ exn_str e))).

Record ScoreJobsRequest : Type := {
  resume_url : string;
  request_jobs : list job;
  user_skills : option (list string);
  user_experience : option string
}.

(** The mean of the scores is a float and is left out of the response. *)
Record score_response : Type := {
  scored_jobs : list ScoredJob;
  scored_count : nat
}.

(** [POST /score_jobs] *)
Definition score_jobs (e : env) (request : ScoreJobsRequest)
  : result score_response :=
  try_except
    (match request_jobs request with
     | [] => Raise (HTTPException 400 "Jobs list is required")
     | _ =>
         if negb (Py.truthy (resume_url request))
         then Raise (HTTPException 400 "Resume URL is required")
         else
           scored_jobs ← AIMatcher.score_jobs (matcher e) (resume_url request)
                           (request_jobs request)
                           (Some (default [] (user_skills request)))
                           (default "" (user_experience request));
           let scored_jobs := Py.sort_reverse fit_score scored_jobs in
           Ok {| scored_jobs := scored_jobs;
                 scored_count := length scored_jobs |}
     end)
    (λ e, Raise (HTTPException 500 ("Job scoring failed: " +:+ exn_str e))).

End Main.

(** ** Vocabulary of the properties *)

(** The key holds a string in the dictionary. *)
Definition is_str (j : job) (k : string) : bool :=
  match j !! k with
  | Some (PStr _) => true
  | _ => false
  end.

(** The key is absent, or holds a string or [None]. *)
Definition is_opt_str (j : job) (k : string) : bool :=
  match j !! k with
  | Some (PStr _) | Some PNone | None => true
  | Some (PList _ _) | Some (PDict _) => false
  end.

(** The value is a string or [None]. *)
Definition str_or_none (v : pyval) : bool :=
  match v with
  | PStr _ | PNone => true
  | PList _ _ | PDict _ => false
  end.

(** A job record in the sense of [models/job.py]: title, company and
    description are present and are strings; location and source_url,
    when present, are strings or [None]. *)
Definition well_formed (j : job) : bool :=
  is_str j "title" && is_str j "company" && is_str j "description"
  && is_opt_str j "location" && is_opt_str j "source_url".

(** The lowercase-normalized (title, company) pair of a job. *)
Definition lower_field (j : job) (k : string) : option string :=
  match j !! k with
  | Some (PStr s) => Some (Py.lower s)
  | _ => None
  end.

Definition norm_pair (j : job) : option string * option string :=
  (lower_field j "title", lower_field j "company").

(** [unique] keeps, in the order of [jobs], the first job of each key. *)
Record first_occurrences (jobs unique : list job) : Prop := {
  fo_sublist : unique `sublist_of` jobs;
  fo_nodup : NoDup (JobScraper.dedup_key <$> unique);
  fo_complete :
    ∀ j, j ∈ jobs → JobScraper.dedup_key j ∈ JobScraper.dedup_key <$> unique;
  fo_first :
    ∀ j, j ∈ unique →
      ∃ l1 l2, jobs = l1 ++ j :: l2
               ∧ JobScraper.dedup_key j ∉ JobScraper.dedup_key <$> l1
}.

(** The structured API contributes nothing: no key is configured, or the
    request fails (it raises, or answers another status than 200). *)
Definition jsearch_unavailable (e : JobScraper.env) : Prop :=
  JobScraper.has_api_key e = false
  ∨ JobScraper.jsearch e = JobScraper.JsearchRaises
  ∨ ∃ status data,
      JobScraper.jsearch e = JobScraper.JsearchAnswers status data
      ∧ status ≠ 200.

(** The HTML source fails, or its page shows no job card. *)
Definition indeed_unavailable (e : JobScraper.env) : Prop :=
  JobScraper.indeed e = JobScraper.IndeedImportFails
  ∨ JobScraper.indeed e = JobScraper.IndeedRequestRaises
  ∨ ∃ select,
      JobScraper.indeed e = JobScraper.IndeedPage select
      ∧ JobScraper.first_cards select JobScraper.job_selectors = [].

(** The mock list asked for [limit]: [min(limit, 15)] records, each with
    the source tag ["mock"]. *)
Definition is_mock_list (limit : Z) (l : list job) : Prop :=
  length l = Z.to_nat (Z.min limit 15)
  ∧ Forall (λ j, j !! "source" = Some (PStr "mock")) l.

(** The scored job carries the fields of the job unchanged. *)
Definition frame (j : job) (sj : ScoredJob) : Prop :=
  j !! "title" = Some (PStr (title sj))
  ∧ j !! "company" = Some (PStr (company sj))
  ∧ j !! "description" = Some (PStr (description sj))
  ∧ optional_str (get j "location") = Ok (location sj)
  ∧ optional_str (get j "source_url") = Ok (source_url sj).

Definition in_range (sj : ScoredJob) : Prop := 0 ≤ fit_score sj ≤ 100.

(** What every scoring path returns for [jobs]: one scored job per job,
    in order, with the fields of the job and a score in [0, 100]. *)
Definition scored (jobs : list job) (l : list ScoredJob) : Prop :=
  Forall2 frame jobs l ∧ Forall in_range l.

(** The batch of [score_jobs] that starts at position [i]: [jobs[i:i + batch_size]]. *)
Definition batch_at (jobs : list job) (i : nat) : list job :=
  take AIMatcher.batch_size (drop i jobs).

(** The scoring loops of [_generate_mock_scores] and [_parse_ai_scores]
    read as one loop over the score and explanation of each position. *)
Fixpoint scored_from (f : nat → Z * string) (i : nat) (jobs : list job)
    (scored_jobs : list ScoredJob) : result (list ScoredJob) :=
  match jobs with
  | [] => Ok scored_jobs
  | j :: rest =>
      scored_job ← AIMatcher.new_ScoredJob j (f i).1 (f i).2;
      scored_from f (i + 1) rest (scored_jobs ++ [scored_job])
  end.

(** The clamp of the specification. *)
Definition clamp (lo hi x : Z) : Z := Z.max lo (Z.min hi x).

(** Non-increasing fit scores. *)
Definition by_score_desc (a b : ScoredJob) : Prop := fit_score b ≤ fit_score a.

(** The jobs of a list that have a given fit score, in their order. *)
Definition with_score (s : Z) (l : list ScoredJob) : list ScoredJob :=
  filter (λ sj, fit_score sj = s) l.

(** The line parser as the specification words it: the line is cut at
    its first [" - "]; the score is the integer after the colon of what
    precedes, the explanation is all the text that remains. *)
Fixpoint cut_first (sep s : string) : option (string * string) :=
  if String.prefix sep s
  then Some (EmptyString, Py.str_drop (String.length sep) s)
  else
    match s with
    | EmptyString => None
    | String c s' =>
        '(before, after) ← cut_first sep s';
        Some (String c before, after)
    end.

Definition parse_line_spec (line : string) : option (Z * string) :=
  '(head, explanation) ← cut_first " - " line;
  '(_, score_part) ← cut_first ":" head;
  score ← Py.int (Py.strip score_part);
  Some (score, Py.strip explanation).

(** ** Sample inputs *)

(** No API key, and an Indeed request that fails. *)
Definition scraper_offline : JobScraper.env :=
  {| JobScraper.jsearch_api_key := None;
     JobScraper.jsearch := JobScraper.JsearchRaises;
     JobScraper.indeed := JobScraper.IndeedRequestRaises;
     JobScraper.draws := λ _, 0%nat |}.

(** An item of the structured API with a title and an employer. *)
Definition jsearch_item (job_title employer_name : string) : item :=
  <["job_title" := JStr job_title]>
    (<["employer_name" := JStr employer_name]> ∅).

(** A configured key, four items answered, an Indeed request that fails. *)
Definition scraper_four_items : JobScraper.env :=
  {| JobScraper.jsearch_api_key := Some "key";
     JobScraper.jsearch :=
       JobScraper.JsearchAnswers 200
         [jsearch_item "Data Engineer" "Acme";
          jsearch_item "data engineer " "ACME";
          jsearch_item "Analyst" "Initech";
          jsearch_item "Developer" "Globex"];
     JobScraper.indeed := JobScraper.IndeedRequestRaises;
     JobScraper.draws := λ _, 0%nat |}.



(** No language-model provider, and a resume that cannot be fetched. *)
Definition matcher_offline : AIMatcher.env :=
  {| AIMatcher.openai_client := None;
     AIMatcher.claude_client := None;
     AIMatcher.resume_reachable := false |}.

(** An OpenAI client that answers every prompt with [reply]. *)
Definition matcher_answering (reply : string) : AIMatcher.env :=
  {| AIMatcher.openai_client := Some (λ _ _, Ok reply);
     AIMatcher.claude_client := None;
     AIMatcher.resume_reachable := true |}.

Definition sample_job (job_title : string) : job :=
  <["title" := PStr job_title]>
    (<["company" := PStr "Acme"]>
       (<["description" := PStr "Build data pipelines."]> ∅)).

Definition job_a : job := sample_job "Backend Engineer".
Definition job_b : job := sample_job "Platform Engineer".

(** A job dictionary without the key ["title"]. *)
Definition job_without_title : job :=
  <["company" := PStr "Acme"]>
    (<["description" := PStr "Build data pipelines."]> ∅).

(** The list [['Remote']]. *)
Definition list_remote : pyval := PList "['Remote']" "['Remote']".

(** A job dictionary with the three strings and a list under
    ["location"]. *)
Definition job_with_list_location : job :=
  <["location" := list_remote]> job_a.

(** A job dictionary whose description is a list. *)
Definition job_with_list_description : job :=
  <["description" := PList "['Build', 'Run']" "['Build', 'Run']"]> job_a.

Definition six_jobs : list job :=
  sample_job <$> ["J0"; "J1"; "J2"; "J3"; "J4"; "J5"].

Definition offline : Main.env :=
  {| Main.scraper := scraper_offline; Main.matcher := matcher_offline |}.

(** The scoring request of the scenario of the specification. *)
Definition request_of (jobs : list job) : Main.ScoreJobsRequest :=
  {| Main.resume_url := "https://x/r.pdf";
     Main.request_jobs := jobs;
     Main.user_skills := Some ["Go"];
     Main.user_experience := Some "3 years" |}.

(** ** Vocabulary of the further properties *)

(** The key holds a non-empty string. *)
Definition nonempty_str (j : job) (k : string) : Prop :=
  ∃ s, j !! k = Some (PStr s) ∧ s ≠ "".

(** The record carries the given source tag. *)
Definition tagged (source : string) (j : job) : Prop :=
  j !! "source" = Some (PStr source).

(** What a record of one of the two real sources looks like. *)
Definition scraped_record (j : job) : Prop :=
  nonempty_str j "title"
  ∧ nonempty_str j "company"
  ∧ (∃ d, j !! "description" = Some (PStr d) ∧ d ≠ ""
          ∧ (String.length d ≤ 1000)%nat)
  ∧ (tagged "jsearch" j ∨ tagged "indeed" j).

(** Title and company are strings: what [_remove_duplicates] reads. *)
Definition keyed (j : job) : bool := is_str j "title" && is_str j "company".

(** The key is present, whatever it holds. *)
Definition has_key (j : job) (k : string) : bool :=
  match j !! k with
  | Some _ => true
  | None => false
  end.

(** The key holds a value that can be sliced: a string or a list. *)
Definition is_sliceable (j : job) (k : string) : bool :=
  match j !! k with
  | Some (PStr _) | Some (PList _ _) => true
  | _ => false
  end.

(** What [_create_scoring_prompt] reads of a job: the three keys, the
    description being a string or a list (it is sliced). *)
Definition prompt_ready (j : job) : bool :=
  has_key j "title" && has_key j "company" && is_sliceable j "description".

(** An item of the structured API that [_parse_jsearch_job] keeps: title,
    employer and description are strings or absent (not [null]), title and
    employer are not blank. *)
Definition jsearch_usable (d : item) (t c : string) : Prop :=
  item_get_default d "job_title" (PStr "") = PStr t
  ∧ item_get_default d "employer_name" (PStr "") = PStr c
  ∧ (∃ ds, item_get_default d "job_description" (PStr "") = PStr ds)
  ∧ Py.strip t ≠ ""
  ∧ Py.strip c ≠ "".

(** The same scraper environment with another Indeed reply. *)
Definition with_indeed (e : JobScraper.env) (r : JobScraper.indeed_reply)
  : JobScraper.env :=
  {| JobScraper.jsearch_api_key := JobScraper.jsearch_api_key e;
     JobScraper.jsearch := JobScraper.jsearch e;
     JobScraper.indeed := r;
     JobScraper.draws := JobScraper.draws e |}.

(** The same matcher environment with another Claude client, and with no
    provider at all. *)
Definition with_claude (e : AIMatcher.env) (c : option AIMatcher.client)
  : AIMatcher.env :=
  {| AIMatcher.openai_client := AIMatcher.openai_client e;
     AIMatcher.claude_client := c;
     AIMatcher.resume_reachable := AIMatcher.resume_reachable e |}.

Definition without_providers (e : AIMatcher.env) : AIMatcher.env :=
  {| AIMatcher.openai_client := None;
     AIMatcher.claude_client := None;
     AIMatcher.resume_reachable := AIMatcher.resume_reachable e |}.

(** The client [_score_job_batch] calls: OpenAI when configured, else
    Claude. *)
Definition active_client (e : AIMatcher.env) : option AIMatcher.client :=
  match AIMatcher.openai_client e with
  | Some c => Some c
  | None => AIMatcher.claude_client e
  end.

Definition always_raises (c : AIMatcher.client) : Prop :=
  ∀ start prompt, ∃ x, c start prompt = Raise x.

Definition always_answers (c : AIMatcher.client) (reply : string) : Prop :=
  ∀ start prompt, c start prompt = Ok reply.

(** What the reply gives the scored job of position [n]: the score of the
    first line tagged ["Job {n+1}:"], clamped into [0, 100], with its
    explanation; 50 and the default explanation when no line holds the tag
    or when that line does not parse. *)
Definition reported (lines : list string) (n : nat) (sj : ScoredJob) : Prop :=
  match List.find (Py.contains ("Job " +:+ Py.str_of_nat (n + 1) +:+ ":")) lines
  with
  | Some line =>
      match AIMatcher.parse_line line with
      | Some (score, explanation) =>
          fit_score sj = clamp 0 100 score
          ∧ score_explanation sj = Some explanation
      | None =>
          fit_score sj = 50
          ∧ score_explanation sj = Some "AI analysis completed"
      end
  | None =>
      fit_score sj = 50 ∧ score_explanation sj = Some "AI analysis completed"
  end.

(** A reply that rates two jobs outside the range. *)
Definition reply_out_of_range : string :=
  "Job 1: 150 - Outstanding" +:+ Py.nl +:+ "Job 2: -5 - Unrelated".

(** The five mock scores of a batch. *)
Definition batch_mock_scores : list Z := [85; 87; 89; 76; 78].

(** A client whose calls fail, and one that answers a fixed reply. *)
Definition failing_client : AIMatcher.client := λ _ _, Raise ProviderError.

Definition answering_client (reply : string) : AIMatcher.client :=
  λ _ _, Ok reply.

(** OpenAI fails on every call while a Claude client is configured. *)
Definition matcher_openai_down : AIMatcher.env :=
  {| AIMatcher.openai_client := Some failing_client;
     AIMatcher.claude_client := Some (answering_client "Job 1: 10 - Poor");
     AIMatcher.resume_reachable := true |}.

(** An item of the structured API whose description is [null]. *)
Definition jsearch_item_null_description : item :=
  <["job_description" := JNull]> (jsearch_item "Data Engineer" "Acme").

(** A page with two cards under the first selector. *)
Definition sample_card (card_title card_company : string) : JobScraper.card :=
  {| JobScraper.select_one := λ selector,
       if String.eqb selector "h2.jobTitle a span" then Some [card_title]
       else if String.eqb selector ".companyName" then Some [card_company]
       else None;
     JobScraper.data_jk := Some "abc123" |}.

Definition sample_page : JobScraper.indeed_reply :=
  JobScraper.IndeedPage (λ selector,
    if String.eqb selector "div[data-jk]"
    then [sample_card "Data Engineer" "Acme"; sample_card "ML Engineer" "Hooli"]
    else []).

(** A configured key, four items answered, and a page of two cards. *)
Definition scraper_both_sources : JobScraper.env :=
  with_indeed scraper_four_items sample_page.

(** ** Facts on the primitives *)

Lemma slice_to_nil {A} (k : Z) : Py.slice_to k (@nil A) = [].
Proof. unfold Py.slice_to. destruct (0 <=? k); apply take_nil. Qed.

Lemma slice_to_is_take {A} (k : Z) (l : list A) :
  ∃ n, Py.slice_to k l = take n l.
Proof. unfold Py.slice_to. destruct (0 <=? k); eauto. Qed.

Lemma slice_to_length {A} (k : Z) (l : list A) :
  0 ≤ k → Z.of_nat (length (Py.slice_to k l)) ≤ k.
Proof.
  intros Hk. unfold Py.slice_to.
  destruct (Z.leb_spec 0 k) as [_|?]; [|lia].
  rewrite length_take. lia.
Qed.

Lemma try_except_ok {A} (body : result A) (handler : exn → result A) a :
  body = Ok a → try_except body handler = Ok a.
Proof. by intros ->. Qed.

(** Case analysis on what a dictionary holds under the required keys. *)
Ltac case_field j k :=
  let v := fresh "v" in destruct (j !! k) as [[v| |? ?|?]|].
Ltac case_required j :=
  case_field j "title"; case_field j "company"; case_field j "description".

(** ** Checks of the primitives *)

Example split_every_separator :
  Py.split " - " "Job 1: 80 - Good - but junior"
  = ["Job 1: 80"; "Good"; "but junior"].
Proof. reflexivity. Qed.

Example split_without_overlap : Py.split " - " "a - - b" = ["a"; "- b"].
Proof. reflexivity. Qed.

Example int_literals :
  (Py.int " 77", Py.int "-5", Py.int "+3", Py.int "1_0",
   Py.int "1__0", Py.int "7.5", Py.int "")
  = (Some 77, Some (-5), Some 3, Some 10, None, None, None).
Proof. reflexivity. Qed.

Example title_of_keyword : Py.title "data engineer" = "Data Engineer".
Proof. reflexivity. Qed.

Example slice_to_negative : Py.slice_to (-1) [1; 2; 3] = [1; 2].
Proof. reflexivity. Qed.

Example range_of_batches : Py.range_step 11 5 = [0; 5; 10]%nat.
Proof. reflexivity. Qed.

Example sort_reverse_keeps_ties :
  Py.sort_reverse fst [(3, "a"); (5, "b"); (3, "c"); (5, "d")]
  = [(5, "b"); (5, "d"); (3, "a"); (3, "c")].
Proof. reflexivity. Qed.

(** A list can be sliced and formatted, so it passes the prompt; the
    validation of [ScoredJob] refuses it, under a required field as under
    an optional one. *)
Example list_description_in_prompt :
  AIMatcher.prompt_job 1 job_with_list_description
  = Ok (Py.join Py.nl
          [""; "Job 1:"; "Title: Backend Engineer"; "Company: Acme";
           "Description: ['Build', 'Run']..."; "Location: Not specified";
           ""; ""]).
Proof. vm_compute. reflexivity. Qed.

Example list_description_is_refused :
  AIMatcher.new_ScoredJob job_with_list_description 50 "AI analysis completed"
  = Raise ValidationError.
Proof. vm_compute. reflexivity. Qed.

Example list_location_is_refused :
  AIMatcher.new_ScoredJob job_with_list_location 50 "AI analysis completed"
  = Raise ValidationError
  ∧ well_formed job_with_list_location = false.
Proof. split; vm_compute; reflexivity. Qed.

(** ** The scraper: every step absorbs its failures *)

Lemma make_job_well_formed t c d l u s :
  str_or_none l = true → str_or_none u = true →
  well_formed (JobScraper.make_job t c d l u s) = true.
Proof.
  unfold well_formed, is_str, is_opt_str, JobScraper.make_job.
  intros Hl Hu. simplify_map_eq. by destruct l, u.
Qed.

Lemma item_get_default_str_or_none d k dflt :
  str_or_none dflt = true → str_or_none (item_get_default d k dflt) = true.
Proof. unfold item_get_default. by destruct (d !! k) as [[]|]. Qed.

Lemma py_or_str_or_none a b :
  str_or_none a = true → str_or_none b = true → str_or_none (py_or a b) = true.
Proof. unfold py_or. by destruct (truthy_val a). Qed.

Lemma source_url_str_or_none d :
  str_or_none (py_or (item_get d "job_apply_link")
                 (item_get_default d "job_url" (PStr ""))) = true.
Proof.
  apply py_or_str_or_none; by apply item_get_default_str_or_none.
Qed.

Lemma _parse_jsearch_job_well_formed d j :
  JobScraper._parse_jsearch_job d = Ok (Some j) → well_formed j = true.
Proof.
  unfold JobScraper._parse_jsearch_job.
  destruct (item_get_default d "job_title" (PStr "")) as [t| | |];
    simpl; [|done..].
  destruct (item_get_default d "employer_name" (PStr "")) as [c| | |];
    simpl; [|done..].
  destruct (item_get_default d "job_description" (PStr "")) as [ds| | |];
    simpl; [|done..].
  destruct (_ || _); simpl; [done|].
  intros [= <-].
  apply make_job_well_formed; [done | apply source_url_str_or_none].
Qed.

Lemma _extract_indeed_job_from_card_well_formed c j :
  JobScraper._extract_indeed_job_from_card c = Ok (Some j) →
  well_formed j = true.
Proof.
  unfold JobScraper._extract_indeed_job_from_card. simpl.
  destruct (_ || _); simpl; [done|].
  intros [= <-]. by apply make_job_well_formed.
Qed.

Lemma collect_well_formed {A} (parse : A → result (option job)) items :
  (∀ a j, parse a = Ok (Some j) → well_formed j = true) →
  ∀ acc, Forall (λ j, well_formed j = true) acc →
         Forall (λ j, well_formed j = true) (JobScraper.collect parse items acc).
Proof.
  intros Hparse. induction items as [|item rest IH]; intros acc Hacc; simpl.
  - done.
  - destruct (parse item) as [[j|]|] eqn:Hitem; auto.
    apply IH, Forall_app. split; [done|].
    constructor; [|constructor]. by eapply Hparse.
Qed.

Lemma _scrape_jsearch_jobs_total e keyword location limit :
  ∃ l, JobScraper._scrape_jsearch_jobs e keyword location limit = Ok l
       ∧ Forall (λ j, well_formed j = true) l.
Proof.
  unfold JobScraper._scrape_jsearch_jobs.
  destruct (JobScraper.has_api_key e); simpl; [|by eexists].
  destruct (JobScraper.jsearch e) as [|status data]; simpl; [by eexists|].
  destruct (status =? 200); simpl; [|by eexists].
  eexists; split; [done|].
  apply collect_well_formed; [apply _parse_jsearch_job_well_formed | done].
Qed.

Lemma _scrape_indeed_jobs_total e keyword location limit :
  ∃ l, JobScraper._scrape_indeed_jobs e keyword location limit = Ok l
       ∧ Forall (λ j, well_formed j = true) l.
Proof.
  unfold JobScraper._scrape_indeed_jobs.
  destruct (JobScraper.indeed e) as [| |select]; [by eexists..|].
  destruct (JobScraper.first_cards select JobScraper.job_selectors);
    [by eexists|].
  eexists; split; [done|].
  apply collect_well_formed;
    [apply _extract_indeed_job_from_card_well_formed | done].
Qed.

Lemma _scrape_jsearch_jobs_unavailable e keyword location limit :
  jsearch_unavailable e →
  JobScraper._scrape_jsearch_jobs e keyword location limit = Ok [].
Proof.
  unfold JobScraper._scrape_jsearch_jobs.
  intros [Hkey|[Hraise|(status & data & Hreply & Hstatus)]].
  - by rewrite Hkey.
  - rewrite Hraise. by destruct (JobScraper.has_api_key e).
  - rewrite Hreply. destruct (JobScraper.has_api_key e); simpl; [|done].
    by destruct (Z.eqb_spec status 200).
Qed.

Lemma _scrape_indeed_jobs_unavailable e keyword location limit :
  indeed_unavailable e →
  JobScraper._scrape_indeed_jobs e keyword location limit = Ok [].
Proof.
  unfold JobScraper._scrape_indeed_jobs.
  intros [Himport|[Hraise|(select & Hpage & Hcards)]].
  - by rewrite Himport.
  - by rewrite Hraise.
  - by rewrite Hpage, Hcards.
Qed.

Lemma dedup_key_well_formed j :
  well_formed j = true → ∃ k, JobScraper.dedup_key j = Ok k.
Proof.
  unfold well_formed, is_str, JobScraper.dedup_key, subscript.
  case_field j "title"; case_field j "company"; simpl; try done.
  by eexists.
Qed.


(** ** Deduplication *)

Lemma remove_duplicates_loop_inv jobs : ∀ seen unique out,
  (∀ k, k ∈ seen ↔ Ok k ∈ JobScraper.dedup_key <$> unique) →
  NoDup (JobScraper.dedup_key <$> unique) →
  JobScraper.remove_duplicates_loop seen unique jobs = Ok out →
  ∃ kept,
    out = unique ++ kept
    ∧ kept `sublist_of` jobs
    ∧ NoDup (JobScraper.dedup_key <$> out)
    ∧ (∀ j, j ∈ jobs →
         JobScraper.dedup_key j ∈ JobScraper.dedup_key <$> out)
    ∧ (∀ j, j ∈ kept →
         ∃ l1 l2, jobs = l1 ++ j :: l2
                  ∧ JobScraper.dedup_key j
                      ∉ JobScraper.dedup_key <$> (unique ++ l1)).
Proof.
  induction jobs as [|j rest IH]; intros seen unique out Hseen Hnodup; simpl.
  - intros [= <-]. exists []. rewrite app_nil_r.
    split_and!; [done|done|done|..]; intros j Hj; by apply elem_of_nil in Hj.
  - destruct (JobScraper.dedup_key j) as [key|] eqn:Hkey; simpl; [|done].
    destruct (decide (key ∈ seen)) as [Hin|Hnotin]; intros Hloop.
    + destruct (IH _ _ _ Hseen Hnodup Hloop)
        as (kept & -> & Hsub & Hnd & Hall & Hfirst).
      exists kept. split_and!; [done|by apply sublist_cons|done|..].
      * intros j' [->|Hj']%elem_of_cons; [|by apply Hall].
        rewrite Hkey, fmap_app. apply elem_of_app. left. by apply Hseen.
      * intros j' Hj'. destruct (Hfirst j' Hj') as (l1 & l2 & -> & Hl1).
        exists (j :: l1), l2. split; [done|].
        intros Hbad. apply Hl1.
        rewrite fmap_app, elem_of_app in Hbad |- *.
        destruct Hbad as [?|Hbad]; [by left|].
        rewrite fmap_cons, elem_of_cons in Hbad.
        destruct Hbad as [Heq|?]; [|by right].
        left. rewrite Heq, Hkey. by apply Hseen.
    + assert (Hseen' : ∀ k, k ∈ ({[key]} ∪ seen : gset string)
                ↔ Ok k ∈ JobScraper.dedup_key <$> (unique ++ [j])).
      { intros k. rewrite fmap_app, elem_of_app, elem_of_union, <- Hseen.
        simpl. rewrite Hkey, list_elem_of_singleton, elem_of_singleton.
        split; (intros [?|?]; [right|left]); congruence. }
      assert (Hnodup' : NoDup (JobScraper.dedup_key <$> (unique ++ [j]))).
      { rewrite fmap_app. apply NoDup_app. split_and!; [done| |].
        - intros k Hk. simpl. rewrite list_elem_of_singleton. intros ->.
          rewrite Hkey in Hk. by apply Hnotin, Hseen.
        - simpl. apply NoDup_singleton. }
      destruct (IH _ _ _ Hseen' Hnodup' Hloop)
        as (kept & -> & Hsub & Hnd & Hall & Hfirst).
      exists (j :: kept). rewrite <- app_assoc. simpl.
      rewrite <- app_assoc in Hnd, Hall. simpl in Hnd, Hall.
      split_and!; [done|by apply sublist_skip|done|..].
      * intros j' [->|Hj']%elem_of_cons; [|by apply Hall].
        rewrite fmap_app. apply elem_of_app. right. simpl. left.
      * intros j' [->|Hj']%elem_of_cons.
        { exists [], rest. split; [done|]. rewrite app_nil_r, Hkey.
          intros Hbad. by apply Hnotin, Hseen. }
        destruct (Hfirst j' Hj') as (l1 & l2 & -> & Hl1).
        exists (j :: l1), l2. split; [done|].
        by rewrite <- app_assoc in Hl1.
Qed.

Lemma _remove_duplicates_first_occurrences jobs unique :
  JobScraper._remove_duplicates jobs = Ok unique →
  first_occurrences jobs unique.
Proof.
  intros Hloop.
  destruct (remove_duplicates_loop_inv jobs ∅ [] unique)
    as (kept & -> & Hsub & Hnd & Hall & Hfirst); [|constructor|done|].
  { intros k. simpl. rewrite elem_of_empty, elem_of_nil. done. }
  by constructor.
Qed.

Lemma remove_duplicates_loop_total jobs : ∀ seen unique,
  Forall (λ j, well_formed j = true) jobs →
  ∃ out, JobScraper.remove_duplicates_loop seen unique jobs = Ok out.
Proof.
  induction jobs as [|j rest IH]; intros seen unique Hwf; simpl.
  - by eexists.
  - apply Forall_cons in Hwf as [Hj Hrest].
    destruct (dedup_key_well_formed j Hj) as [key ->]. simpl.
    destruct (decide (key ∈ seen)); by apply IH.
Qed.



(** The body of the [try] of [scrape_jobs] always returns: what the two
    sources gave, deduplicated and cut at [limit]. *)
Lemma aggregate_returns e keyword location limit :
  ∃ all_jobs unique,
    Forall (λ j, well_formed j = true) all_jobs
    ∧ JobScraper._remove_duplicates all_jobs = Ok unique
    ∧ JobScraper.aggregate e keyword location limit
      = Ok (Py.slice_to limit unique).
Proof.
  unfold JobScraper.aggregate.
  assert (∃ l1, (if JobScraper.has_api_key e
                 then JobScraper._scrape_jsearch_jobs e keyword location limit
                 else Ok []) = Ok l1
                ∧ Forall (λ j, well_formed j = true) l1)
    as (l1 & -> & Hl1).
  { destruct (JobScraper.has_api_key e);
      [apply _scrape_jsearch_jobs_total | by eexists]. }
  simpl.
  assert (∃ l2, (if Z.of_nat (length l1) <? limit
                 then JobScraper._scrape_indeed_jobs e keyword location
                        (limit - Z.of_nat (length l1))
                 else Ok []) = Ok l2
                ∧ Forall (λ j, well_formed j = true) l2)
    as (l2 & -> & Hl2).
  { destruct (Z.of_nat (length l1) <? limit);
      [apply _scrape_indeed_jobs_total | by eexists]. }
  simpl.
  assert (Hall : Forall (λ j, well_formed j = true) (l1 ++ l2))
    by by apply Forall_app.
  destruct (remove_duplicates_loop_total (l1 ++ l2) ∅ [] Hall)
    as [unique Hunique].
  exists (l1 ++ l2), unique. split_and!; [done|done|].
  unfold JobScraper._remove_duplicates in *. by rewrite Hunique.
Qed.

(** No modelled step raises outside its own handler, so the handler of
    the outer [try] is not taken. *)
Lemma scrape_jobs_is_aggregate e keyword location limit :
  JobScraper.scrape_jobs e keyword location limit
  = JobScraper.aggregate e keyword location limit.
Proof.
  unfold JobScraper.scrape_jobs.
  destruct (aggregate_returns e keyword location limit)
    as (all_jobs & unique & _ & _ & ->).
  done.
Qed.

(** ** The scorer: one scored job per job *)

Lemma new_ScoredJob_inv j score explanation sj :
  AIMatcher.new_ScoredJob j score explanation = Ok sj →
  frame j sj ∧ fit_score sj = score ∧ score_explanation sj = Some explanation.
Proof.
  unfold AIMatcher.new_ScoredJob, frame, subscript, get, get_default.
  case_required j; simpl; try done.
  destruct (j !! "location") as [[]|], (j !! "source_url") as [[]|];
    simpl; try done; by intros [= <-].
Qed.

Lemma new_ScoredJob_total j score explanation :
  well_formed j = true →
  ∃ sj, AIMatcher.new_ScoredJob j score explanation = Ok sj.
Proof.
  unfold AIMatcher.new_ScoredJob, well_formed, is_str, is_opt_str, subscript,
    get, get_default.
  case_required j; simpl; try done.
  destruct (j !! "location") as [[]|], (j !! "source_url") as [[]|];
    simpl; try done; by eexists.
Qed.

Lemma frame_well_formed j sj : frame j sj → well_formed j = true.
Proof.
  unfold frame, well_formed, is_str, is_opt_str, get, get_default.
  intros (-> & -> & -> & Hl & Hu).
  by destruct (j !! "location") as [[]|], (j !! "source_url") as [[]|].
Qed.

Lemma scored_from_inv f jobs : ∀ i acc l,
  scored_from f i jobs acc = Ok l →
  ∃ l', l = acc ++ l'
        ∧ Forall2 frame jobs l'
        ∧ fit_score <$> l' = (λ k, (f k).1) <$> seq i (length jobs)
        ∧ score_explanation <$> l'
          = (λ k, Some (f k).2) <$> seq i (length jobs).
Proof.
  induction jobs as [|j rest IH]; intros i acc l; simpl.
  - intros [= <-]. exists []. by rewrite app_nil_r.
  - destruct (AIMatcher.new_ScoredJob j (f i).1 (f i).2) as [sj|] eqn:Hsj;
      simpl; [|done].
    intros Hrest. apply new_ScoredJob_inv in Hsj as (Hframe & Hscore & Hexpl).
    destruct (IH _ _ _ Hrest) as (l' & -> & Hl' & Hscores & Hexpls).
    exists (sj :: l'). rewrite <- app_assoc.
    replace (S i) with (i + 1)%nat by lia.
    rewrite !fmap_cons, Hscores, Hexpls, Hscore, Hexpl.
    split_and!; by try constructor.
Qed.

Lemma scored_from_total f jobs : ∀ i acc,
  Forall (λ j, well_formed j = true) jobs →
  ∃ l, scored_from f i jobs acc = Ok l.
Proof.
  induction jobs as [|j rest IH]; intros i acc Hwf; simpl.
  - by eexists.
  - apply Forall_cons in Hwf as [Hj Hrest].
    destruct (new_ScoredJob_total j (f i).1 (f i).2 Hj) as [sj ->]. simpl.
    by apply IH.
Qed.

Lemma Forall2_frame_well_formed jobs l :
  Forall2 frame jobs l → Forall (λ j, well_formed j = true) jobs.
Proof.
  induction 1; constructor; [by eapply frame_well_formed | done].
Qed.

Lemma mock_scores_from_eq jobs : ∀ i acc,
  AIMatcher.mock_scores_from i jobs acc
  = scored_from (λ i, (AIMatcher.mock_score i, AIMatcher.mock_explanation))
      i jobs acc.
Proof.
  induction jobs as [|j rest IH]; intros i acc; simpl; [done|].
  destruct (AIMatcher.new_ScoredJob _ _ _); simpl; [apply IH | done].
Qed.

Lemma parse_scores_from_eq lines jobs : ∀ i acc,
  AIMatcher.parse_scores_from lines i jobs acc
  = scored_from (AIMatcher.score_for lines) i jobs acc.
Proof.
  induction jobs as [|j rest IH]; intros i acc; simpl; [done|].
  destruct (AIMatcher.score_for lines i) as [score explanation]; simpl.
  destruct (AIMatcher.new_ScoredJob _ _ _); simpl; [apply IH | done].
Qed.

Lemma mock_score_range i : 40 ≤ AIMatcher.mock_score i ≤ 95.
Proof. unfold AIMatcher.mock_score. lia. Qed.

Lemma score_for_range lines i : 0 ≤ (AIMatcher.score_for lines i).1 ≤ 100.
Proof.
  unfold AIMatcher.score_for.
  destruct (default _ _) as [score explanation]. simpl. lia.
Qed.

Lemma Forall_in_range (g : nat → Z) (l : list ScoredJob) (ks : list nat) :
  (∀ k, 0 ≤ g k ≤ 100) → fit_score <$> l = g <$> ks → Forall in_range l.
Proof.
  intros Hg. revert ks.
  induction l as [|sj l IH]; intros [|k ks]; simpl; try done.
  intros [= Hsj Hl]. constructor; [|by eapply IH].
  unfold in_range. rewrite Hsj. apply Hg.
Qed.

Lemma scored_well_formed jobs l :
  scored jobs l → Forall (λ j, well_formed j = true) jobs.
Proof. intros [H _]. by eapply Forall2_frame_well_formed. Qed.

Lemma scored_app jobs1 l1 jobs2 l2 :
  scored jobs1 l1 → scored jobs2 l2 → scored (jobs1 ++ jobs2) (l1 ++ l2).
Proof.
  intros [? ?] [? ?]. split; [by apply Forall2_app | by apply Forall_app].
Qed.

Lemma _generate_mock_scores_inv jobs l :
  AIMatcher._generate_mock_scores jobs = Ok l →
  scored jobs l
  ∧ fit_score <$> l = AIMatcher.mock_score <$> seq 0 (length jobs).
Proof.
  unfold AIMatcher._generate_mock_scores. rewrite mock_scores_from_eq.
  intros (l' & -> & Hframe & Hscores & _)%scored_from_inv. simpl in *.
  split; [split; [done|] | done].
  eapply Forall_in_range; [|done]. intros k. simpl.
  pose proof (mock_score_range k). lia.
Qed.

Lemma _generate_mock_scores_total jobs :
  Forall (λ j, well_formed j = true) jobs →
  ∃ l, AIMatcher._generate_mock_scores jobs = Ok l.
Proof.
  unfold AIMatcher._generate_mock_scores. rewrite mock_scores_from_eq.
  apply scored_from_total.
Qed.

(** A handler that falls back on the mock scores returns only where the
    guarded body would have returned too. *)
Lemma try_mock_inv (body : result (list ScoredJob)) jobs l :
  (Forall (λ j, well_formed j = true) jobs → ∃ l', body = Ok l') →
  try_except body (λ _, AIMatcher._generate_mock_scores jobs) = Ok l →
  body = Ok l.
Proof.
  intros Htotal. destruct body as [l'|e]; simpl; [done|].
  intros Hmock. apply _generate_mock_scores_inv in Hmock as [Hmock _].
  destruct (Htotal (scored_well_formed _ _ Hmock)) as [? ?]. discriminate.
Qed.

Lemma try_mock_total (body : result (list ScoredJob)) jobs :
  Forall (λ j, well_formed j = true) jobs →
  ∃ l, try_except body (λ _, AIMatcher._generate_mock_scores jobs) = Ok l.
Proof.
  intros Hwf. destruct body; simpl; [by eexists|].
  by apply _generate_mock_scores_total.
Qed.

Lemma try_mock_scored (body : result (list ScoredJob)) jobs l :
  (∀ l', body = Ok l' → scored jobs l') →
  try_except body (λ _, AIMatcher._generate_mock_scores jobs) = Ok l →
  scored jobs l.
Proof.
  intros Hbody. destruct body as [l'|e]; simpl.
  - intros [= <-]. by apply Hbody.
  - intros H. by apply _generate_mock_scores_inv in H as [? _].
Qed.

Lemma _parse_ai_scores_inv jobs ai_response l :
  AIMatcher._parse_ai_scores jobs ai_response = Ok l →
  let lines := Py.split Py.nl (Py.strip ai_response) in
  scored jobs l
  ∧ fit_score <$> l
    = (λ k, (AIMatcher.score_for lines k).1) <$> seq 0 (length jobs)
  ∧ score_explanation <$> l
    = (λ k, Some (AIMatcher.score_for lines k).2) <$> seq 0 (length jobs).
Proof.
  intros Hl lines. unfold AIMatcher._parse_ai_scores in Hl.
  fold lines in Hl. apply try_mock_inv in Hl.
  2: { intros Hwf. rewrite parse_scores_from_eq. by apply scored_from_total. }
  rewrite parse_scores_from_eq in Hl.
  apply scored_from_inv in Hl as (l' & -> & Hframe & Hscores & Hexpls).
  simpl. split; [split; [done|] | done].
  eapply Forall_in_range; [|done]. intros k. apply score_for_range.
Qed.

Lemma _score_with_scored c start p jobs l :
  AIMatcher._score_with c start p jobs = Ok l → scored jobs l.
Proof.
  unfold AIMatcher._score_with. apply try_mock_scored. intros l'.
  destruct (AIMatcher._create_scoring_prompt p jobs) as [prompt|]; simpl;
    [|done].
  destruct (c start prompt) as [response|]; simpl; [|done].
  intros H. by apply _parse_ai_scores_inv in H as [? _].
Qed.

Lemma _score_job_batch_scored e start p jobs l :
  AIMatcher._score_job_batch e start p jobs = Ok l → scored jobs l.
Proof.
  unfold AIMatcher._score_job_batch. apply try_mock_scored. intros l'.
  destruct (AIMatcher.openai_client e); [apply _score_with_scored|].
  destruct (AIMatcher.claude_client e); [apply _score_with_scored|].
  intros H. by apply _generate_mock_scores_inv in H as [? _].
Qed.

Lemma _score_job_batch_total e start p jobs :
  Forall (λ j, well_formed j = true) jobs →
  ∃ l, AIMatcher._score_job_batch e start p jobs = Ok l.
Proof. apply try_mock_total. Qed.

Lemma _score_job_batch_mock e start p jobs l :
  AIMatcher.openai_client e = None → AIMatcher.claude_client e = None →
  AIMatcher._score_job_batch e start p jobs = Ok l →
  fit_score <$> l = AIMatcher.mock_score <$> seq 0 (length jobs).
Proof.
  unfold AIMatcher._score_job_batch. intros -> ->.
  destruct (AIMatcher._generate_mock_scores jobs) eqn:Hmock; simpl.
  - intros [= <-]. by apply _generate_mock_scores_inv in Hmock as [_ ?].
  - done.
Qed.

(** ** The batches *)

Lemma range_step_5 n :
  ∃ m, Py.range_step n AIMatcher.batch_size = (λ k, k * 5)%nat <$> seq 0 m
       ∧ (n ≤ m * 5)%nat.
Proof.
  exists ((n + 5 - 1) / 5)%nat. split; [done|].
  pose proof (Nat.div_mod_eq (n + 5 - 1) 5).
  pose proof (Nat.mod_upper_bound (n + 5 - 1) 5). lia.
Qed.

Lemma batches_take (jobs : list job) m :
  concat (batch_at jobs <$> ((λ k, k * 5)%nat <$> seq 0 m))
  = take (m * 5) jobs.
Proof.
  induction m as [|m IH]; [done|].
  rewrite seq_S, !fmap_app, concat_app, IH. simpl.
  rewrite app_nil_r. unfold batch_at, AIMatcher.batch_size.
  rewrite take_take_drop. f_equal. lia.
Qed.

Lemma batches_concat (jobs : list job) :
  concat (batch_at jobs <$> Py.range_step (length jobs) AIMatcher.batch_size)
  = jobs.
Proof.
  destruct (range_step_5 (length jobs)) as (m & -> & Hm).
  rewrite batches_take. by apply take_ge.
Qed.

Lemma batch_positions (jobs : list job) m :
  concat ((λ i, seq 0 (length (batch_at jobs i)))
            <$> ((λ k, k * 5)%nat <$> seq 0 m))
  = (λ n, n mod 5)%nat <$> seq 0 ((m * 5) `min` length jobs).
Proof.
  induction m as [|m IH]; [done|].
  rewrite seq_S, !fmap_app, concat_app, IH.
  cbn [fmap list_fmap concat Nat.add]. rewrite app_nil_r.
  unfold batch_at, AIMatcher.batch_size. rewrite length_take, length_drop.
  replace ((S m * 5) `min` length jobs)%nat
    with (((m * 5) `min` length jobs)
          + (5 `min` (length jobs - m * 5)))%nat by lia.
  rewrite seq_app, fmap_app. f_equal. cbn [Nat.add].
  destruct (decide (m * 5 ≤ length jobs)%nat) as [Hle|Hgt].
  - replace ((m * 5) `min` length jobs)%nat with (m * 5 + 0)%nat by lia.
    rewrite <- fmap_add_seq, <- list_fmap_compose.
    rewrite <- (list_fmap_id (seq 0 _)) at 1.
    apply list_fmap_ext. intros i k Hk. cbn [compose id].
    apply lookup_seq in Hk as [-> Hi].
    replace (m * 5 + (0 + i))%nat with (i + m * 5)%nat by lia.
    rewrite Nat.Div0.mod_add, Nat.mod_small; lia.
  - by replace (length jobs - m * 5)%nat with 0%nat by lia.
Qed.

Lemma score_batches_scored e p jobs starts : ∀ acc l,
  AIMatcher.score_batches e p jobs starts acc = Ok l →
  ∃ l', l = acc ++ l' ∧ scored (concat (batch_at jobs <$> starts)) l'.
Proof.
  induction starts as [|i rest IH]; intros acc l; simpl.
  - intros [= <-]. exists []. rewrite app_nil_r. by repeat constructor.
  - destruct (AIMatcher._score_job_batch e i p _) as [batch_scores|] eqn:Hb;
      simpl; [|done].
    intros (l' & -> & Hl')%IH. apply _score_job_batch_scored in Hb.
    exists (batch_scores ++ l'). rewrite app_assoc. split; [done|].
    by apply scored_app.
Qed.

Lemma score_batches_total e p jobs starts : ∀ acc,
  Forall (λ j, well_formed j = true) jobs →
  ∃ l, AIMatcher.score_batches e p jobs starts acc = Ok l.
Proof.
  induction starts as [|i rest IH]; intros acc Hwf; simpl; [by eexists|].
  destruct (_score_job_batch_total e i p
              (take AIMatcher.batch_size (drop i jobs))) as [l ->].
  { by apply Forall_take, Forall_drop. }
  simpl. by apply IH.
Qed.

Lemma score_batches_mock e p jobs starts : ∀ acc l,
  AIMatcher.openai_client e = None → AIMatcher.claude_client e = None →
  AIMatcher.score_batches e p jobs starts acc = Ok l →
  fit_score <$> l
  = (fit_score <$> acc)
      ++ (AIMatcher.mock_score
            <$> concat ((λ i, seq 0 (length (batch_at jobs i))) <$> starts)).
Proof.
  intros acc l Ho Hc. revert acc l.
  induction starts as [|i rest IH]; intros acc l; simpl.
  - intros [= <-]. by rewrite app_nil_r.
  - destruct (AIMatcher._score_job_batch e i p _) as [batch_scores|] eqn:Hb;
      simpl; [|done].
    intros ->%IH. apply _score_job_batch_mock in Hb; [|done..].
    by rewrite !fmap_app, Hb, app_assoc.
Qed.

Lemma score_jobs_scored e resume_url jobs user_skills user_experience l :
  AIMatcher.score_jobs e resume_url jobs user_skills user_experience = Ok l →
  scored jobs l.
Proof.
  unfold AIMatcher.score_jobs. apply try_mock_scored. intros l'.
  intros (l'' & -> & Hl'')%score_batches_scored.
  by rewrite batches_concat in Hl''.
Qed.

Lemma score_jobs_total e resume_url jobs user_skills user_experience :
  Forall (λ j, well_formed j = true) jobs →
  ∃ l, AIMatcher.score_jobs e resume_url jobs user_skills user_experience
       = Ok l.
Proof. apply try_mock_total. Qed.

Lemma score_jobs_mock e resume_url jobs user_skills user_experience l :
  AIMatcher.openai_client e = None → AIMatcher.claude_client e = None →
  AIMatcher.score_jobs e resume_url jobs user_skills user_experience = Ok l →
  fit_score <$> l
  = (λ n, AIMatcher.mock_score (n mod 5)) <$> seq 0 (length jobs).
Proof.
  unfold AIMatcher.score_jobs. intros Ho Hc Hl.
  apply try_mock_inv in Hl; [|apply score_batches_total].
  apply score_batches_mock in Hl; [|done..]. rewrite Hl. simpl.
  destruct (range_step_5 (length jobs)) as (m & -> & Hm).
  rewrite batch_positions, <- list_fmap_compose.
  by replace ((m * 5) `min` length jobs)%nat with (length jobs) by lia.
Qed.

(** ** The reversed stable sort *)

Section sorting.
Context {A : Type} (key : A → Z).

Lemma insert_desc_perm x l : Py.insert_desc key x l ≡ₚ x :: l.
Proof.
  induction l as [|y l IH]; simpl; [done|].
  destruct (key x <? key y); [|done].
  rewrite IH. apply Permutation_swap.
Qed.

Lemma sort_reverse_perm l : Py.sort_reverse key l ≡ₚ l.
Proof.
  induction l as [|x l IH]; simpl; [done|].
  by rewrite insert_desc_perm, IH.
Qed.

Lemma insert_desc_sorted x l :
  StronglySorted (λ a b, key b ≤ key a) l →
  StronglySorted (λ a b, key b ≤ key a) (Py.insert_desc key x l).
Proof.
  induction 1 as [|y l Hl IH Hy]; simpl; [repeat constructor|].
  destruct (Z.ltb_spec (key x) (key y)) as [Hlt|Hge].
  - constructor; [done|].
    rewrite insert_desc_perm. constructor; [lia|done].
  - constructor; [by constructor|].
    constructor; [done|]. eapply Forall_impl; [done|]. simpl. lia.
Qed.

Lemma sort_reverse_sorted l :
  StronglySorted (λ a b, key b ≤ key a) (Py.sort_reverse key l).
Proof.
  induction l as [|x l IH]; simpl; [constructor|].
  by apply insert_desc_sorted.
Qed.

Lemma insert_desc_stable s x l :
  filter (λ a, key a = s) (Py.insert_desc key x l)
  = filter (λ a, key a = s) (x :: l).
Proof.
  induction l as [|y l IH]; simpl; [done|].
  destruct (Z.ltb_spec (key x) (key y)) as [Hlt|Hge]; [|done].
  rewrite !filter_cons in *.
  destruct (decide (key y = s)), (decide (key x = s)); try lia; by rewrite IH.
Qed.

Lemma sort_reverse_stable s l :
  filter (λ a, key a = s) (Py.sort_reverse key l)
  = filter (λ a, key a = s) l.
Proof.
  induction l as [|x l IH]; simpl; [done|].
  by rewrite insert_desc_stable, !filter_cons, IH.
Qed.

End sorting.

Lemma Forall_sublist_of {A} (P : A → Prop) (l k : list A) :
  l `sublist_of` k → Forall P k → Forall P l.
Proof.
  induction 1 as [|x l k _ IH|x l k _ IH]; intros Hk; [done|..];
    apply Forall_cons in Hk as [Hx Hk]; [constructor|]; auto.
Qed.

(** ** The mock job list *)

Lemma mock_jobs_from_mock rnd keyword location : ∀ count n i,
  length (JobScraper.mock_jobs_from rnd keyword location n i count) = count
  ∧ Forall (λ j, j !! "source" = Some (PStr "mock"))
      (JobScraper.mock_jobs_from rnd keyword location n i count).
Proof.
  induction count as [|count IH]; intros n i; simpl; [done|].
  destruct (Py.truthy location);
    (split; [cbn [length]; f_equal; apply (proj1 (IH _ _))
            | constructor; [done | apply (proj2 (IH _ _))]]).
Qed.

(** ** Properties of the job aggregator *)

(** What the code does when no source gives a record (no key configured
    or a failed request to the structured API, and an HTML source that
    fails or shows no job card): each source absorbs its own failure as
    zero records, the [try] of [scrape_jobs] finishes, and the empty list
    is returned. The list of [min(limit, 15)] records tagged ["mock"] is
    what [_get_mock_jobs] builds for the handler of that [try]. *)
Lemma scrape_jobs_sources_unavailable :
  (∀ e keyword location limit,
     jsearch_unavailable e → indeed_unavailable e →
     JobScraper.scrape_jobs e keyword location limit = Ok [])
  ∧ (∀ rnd keyword location limit,
       is_mock_list limit (JobScraper._get_mock_jobs rnd keyword location limit)).
Proof.
  split.
  - intros e keyword location limit Hjsearch Hindeed.
    rewrite scrape_jobs_is_aggregate. unfold JobScraper.aggregate.
    rewrite _scrape_jsearch_jobs_unavailable by done.
    destruct (JobScraper.has_api_key e); cbn [mbind result_bind length app];
      rewrite _scrape_indeed_jobs_unavailable by done;
      destruct (Z.of_nat 0 <? limit); cbn [mbind result_bind app];
      unfold JobScraper._remove_duplicates;
      cbn [JobScraper.remove_duplicates_loop mbind result_bind];
      by rewrite slice_to_nil.
  - intros rnd keyword location limit.
    unfold is_mock_list, JobScraper._get_mock_jobs. apply mock_jobs_from_mock.
Qed.

(** C1, where the code departs from it: the module and [scrape_jobs]
    announce a fallback, and the handler of [scrape_jobs] returns
    [_get_mock_jobs(keyword, location, limit)]; but with no key configured
    and a failing Indeed request both sources are unavailable, and
    [scrape_jobs("data engineer", "Remote", 5)] returns the empty list,
    not the list of [min(5, 15)] records tagged ["mock"] that
    [_get_mock_jobs] builds for this call. *)
Lemma scrape_jobs_offline_not_mock :
  jsearch_unavailable scraper_offline
  ∧ indeed_unavailable scraper_offline
  ∧ 1 ≤ 5 ≤ 50
  ∧ JobScraper.scrape_jobs scraper_offline "data engineer" "Remote" 5 = Ok []
  ∧ ¬ is_mock_list 5 []
  ∧ is_mock_list 5
      (JobScraper._get_mock_jobs (JobScraper.draws scraper_offline)
         "data engineer" "Remote" 5).
Proof.
  split_and!; [by left | by right; left | lia | lia | reflexivity | |].
  - intros [Hlen _]. vm_compute in Hlen. discriminate.
  - unfold is_mock_list, JobScraper._get_mock_jobs. apply mock_jobs_from_mock.
Qed.




(** The mock generator itself can repeat a pair: two rounds that draw the
    same level and company give two records with the same title and
    company. *)
Lemma mock_jobs_repeat_pair :
  ¬ NoDup (norm_pair
             <$> JobScraper._get_mock_jobs (λ _, 0%nat) "data engineer" "Remote" 2).
Proof.
  intros H. vm_compute in H. apply NoDup_cons in H as [Hin _].
  apply Hin. left.
Qed.

Lemma scrape_jobs_returns e keyword location limit :
  ∃ l, JobScraper.scrape_jobs e keyword location limit = Ok l
       ∧ Forall (λ j, well_formed j = true) l
       ∧ (0 ≤ limit → Z.of_nat (length l) ≤ limit).
Proof.
  rewrite scrape_jobs_is_aggregate.
  destruct (aggregate_returns e keyword location limit)
    as (all_jobs & unique & Hwf & Hunique & ->).
  eexists. split_and!; [done| |apply slice_to_length].
  apply _remove_duplicates_first_occurrences in Hunique as [Hsub _ _ _].
  destruct (slice_to_is_take limit unique) as [n ->].
  by eapply Forall_take, Forall_sublist_of.
Qed.

(** C9, as the code has it: for every request to the [scrape_jobs]
    endpoint with a non-blank keyword and a requested limit that is not
    negative, the number of returned records is at most the requested
    limit; the aggregator is called with [min(limit, 50)], so the result
    never exceeds 50 records. *)
Theorem scrape_jobs_endpoint_limit e keyword location limit :
  Py.truthy (Py.strip keyword) = true →
  0 ≤ limit →
  ∃ response,
    Main.scrape_jobs e keyword location limit = Ok response
    ∧ JobScraper.scrape_jobs (Main.scraper e) (Py.strip keyword)
        (Py.strip location) (Z.min limit 50)
      = Ok (Main.jobs response)
    ∧ Main.count response = length (Main.jobs response)
    ∧ Z.of_nat (length (Main.jobs response)) ≤ limit
    ∧ Z.of_nat (length (Main.jobs response)) ≤ 50.
Proof.
  intros Hkeyword Hlimit. unfold Main.scrape_jobs. rewrite Hkeyword.
  destruct (scrape_jobs_returns (Main.scraper e) (Py.strip keyword)
              (Py.strip location) (Z.min limit 50)) as (l & Hl & _ & Hlen).
  rewrite Hl. eexists. split; [reflexivity|]. simpl.
  split_and!; [done|done|lia|lia].
Qed.

(** A limit of 2 on three distinct records. *)
Lemma scrape_jobs_endpoint_limit_witness :
  ∃ response,
    Main.scrape_jobs
      {| Main.scraper := scraper_four_items; Main.matcher := matcher_offline |}
      "data engineer" "" 2 = Ok response
    ∧ Z.of_nat (length (Main.jobs response)) ≤ 2.
Proof.
  destruct (scrape_jobs_endpoint_limit
              {| Main.scraper := scraper_four_items;
                 Main.matcher := matcher_offline |}
              "data engineer" "" 2)
    as (response & Hresponse & _ & _ & Hlen & _);
    [reflexivity | lia |].
  exists response. split; [exact Hresponse | exact Hlen].
Defined.

(** C9 as stated fails for a negative limit: [limit=-1] passes the cap,
    the slices [[:limit]] then drop the last element only, and the
    endpoint returns one record, which is more than the requested limit. *)
Lemma scrape_jobs_endpoint_negative_limit :
  ∃ response,
    Main.scrape_jobs
      {| Main.scraper := scraper_four_items; Main.matcher := matcher_offline |}
      "data engineer" "" (-1) = Ok response
    ∧ Py.truthy (Py.strip "data engineer") = true
    ∧ length (Main.jobs response) = 1%nat
    ∧ ¬ Z.of_nat (length (Main.jobs response)) ≤ -1.
Proof.
  eexists. split; [vm_compute; reflexivity|].
  split_and!; [reflexivity | reflexivity |].
  intros H. vm_compute in H. by apply H.
Qed.

(** ** Properties of the fit scorer *)

Lemma fmap_seq_lookup {A B} (g : A → B) (f : nat → B) (l : list A) len n x :
  g <$> l = f <$> seq 0 len → l !! n = Some x → g x = f n.
Proof.
  intros Heq Hx.
  assert ((g <$> l) !! n = Some (g x)) as H by by rewrite list_lookup_fmap, Hx.
  rewrite Heq, list_lookup_fmap in H.
  destruct (seq 0 len !! n) as [k|] eqn:Hk; simpl in H; [|done].
  apply lookup_seq in Hk as [-> _]. by injection H.
Qed.

Lemma _parse_ai_scores_total jobs ai_response :
  Forall (λ j, well_formed j = true) jobs →
  ∃ l, AIMatcher._parse_ai_scores jobs ai_response = Ok l.
Proof. apply try_mock_total. Qed.

Lemma score_for_cases lines n :
  AIMatcher.score_for lines n
  = match List.find (Py.contains ("Job " +:+ Py.str_of_nat (n + 1) +:+ ":"))
            lines with
    | Some line =>
        match Py.split " - " line with
        | part0 :: part1 :: _ =>
            match Py.split ":" part0 !! 1%nat with
            | Some segment =>
                match Py.int (Py.strip segment) with
                | Some score => (clamp 0 100 score, Py.strip part1)
                | None => (50, "AI analysis completed")
                end
            | None => (50, "AI analysis completed")
            end
        | _ => (50, "AI analysis completed")
        end
    | None => (50, "AI analysis completed")
    end.
Proof.
  unfold AIMatcher.score_for, AIMatcher.parse_line.
  destruct (List.find _ lines) as [line|]; [|done].
  destruct (Py.split " - " line) as [|part0 [|part1 rest]]; [done..|].
  destruct (Py.split ":" part0 !! 1%nat) as [segment|]; [|done]. simpl.
  by destruct (Py.int (Py.strip segment)).
Qed.

(** C2, as the code has it: [scrape_jobs] never raises and returns a list
    of job records; [score_jobs] never raises, and returns one scored job
    per job, when every job dictionary is a job record: a string under
    ["title"], ["company"] and ["description"], and a string, [None] or no
    entry under ["location"] and ["source_url"]. (Any other dictionary
    makes the mock generator, the last handler, raise itself.) *)
Theorem services_return :
  (∀ e keyword location limit,
     ∃ l, JobScraper.scrape_jobs e keyword location limit = Ok l
          ∧ Forall (λ j, well_formed j = true) l)
  ∧ (∀ e resume_url jobs user_skills user_experience,
       Forall (λ j, well_formed j = true) jobs →
       ∃ l, AIMatcher.score_jobs e resume_url jobs user_skills user_experience
            = Ok l
            ∧ scored jobs l).
Proof.
  split.
  - intros e keyword location limit.
    destruct (scrape_jobs_returns e keyword location limit) as (l & ? & ? & _).
    by exists l.
  - intros e resume_url jobs user_skills user_experience Hwf.
    destruct (score_jobs_total e resume_url jobs user_skills user_experience Hwf)
      as [l Hl].
    exists l. split; [done|]. by eapply score_jobs_scored.
Qed.

(** Two job records scored through a configured client. *)
Lemma services_return_witness :
  ∃ l, AIMatcher.score_jobs (matcher_answering "Job 1: 64 - Fair match")
         "https://x/r.pdf" [job_a; job_b] (Some ["Go"]) "3 years" = Ok l
       ∧ scored [job_a; job_b] l.
Proof.
  apply (proj2 services_return).
  repeat constructor.
Defined.

(** C2 as stated fails: for a job dictionary without the key ["title"]
    every fallback of [score_jobs] ends in [_generate_mock_scores], which
    reads [job['title']] too, and the [KeyError] reaches the caller. So
    does the validation error of [ScoredJob] for a dictionary that has the
    three strings and a list under ["location"]. *)
Lemma score_jobs_raises_outside_records :
  AIMatcher.score_jobs matcher_offline "https://x/r.pdf" [job_without_title]
    (Some ["Go"]) "3 years"
  = Raise (KeyError "title")
  ∧ AIMatcher.score_jobs (matcher_answering "Job 1: 64 - Fair match")
      "https://x/r.pdf" [job_without_title] (Some ["Go"]) "3 years"
    = Raise (KeyError "title")
  ∧ AIMatcher.score_jobs matcher_offline "https://x/r.pdf"
      [job_with_list_location] (Some ["Go"]) "3 years"
    = Raise ValidationError
  ∧ AIMatcher.score_jobs (matcher_answering "Job 1: 64 - Fair match")
      "https://x/r.pdf" [job_with_list_location] (Some ["Go"]) "3 years"
    = Raise ValidationError.
Proof. split_and!; vm_compute; reflexivity. Qed.



(** C5: the list that the [score_jobs] endpoint returns to its caller is
    the list of [AIMatcher.score_jobs] sorted by non-increasing fit score,
    the jobs of equal score in the order they had in that list. *)
Theorem score_jobs_endpoint_sorted e request response :
  Main.score_jobs e request = Ok response →
  ∃ scored_jobs,
    AIMatcher.score_jobs (Main.matcher e) (Main.resume_url request)
      (Main.request_jobs request)
      (Some (default [] (Main.user_skills request)))
      (default "" (Main.user_experience request))
    = Ok scored_jobs
    ∧ StronglySorted by_score_desc (Main.scored_jobs response)
    ∧ Main.scored_jobs response ≡ₚ scored_jobs
    ∧ ∀ s, with_score s (Main.scored_jobs response) = with_score s scored_jobs.
Proof.
  unfold Main.score_jobs.
  destruct (Main.request_jobs request) as [|j jobs]; [done|].
  destruct (Py.truthy (Main.resume_url request)); [|done]. simpl.
  destruct (AIMatcher.score_jobs _ _ _ _ _) as [scored_jobs|]; [|done]. simpl.
  intros [= <-]. exists scored_jobs. simpl.
  split_and!; [done | apply sort_reverse_sorted | apply sort_reverse_perm |].
  intros s. apply sort_reverse_stable.
Qed.

(** Six mock scores sorted; the two jobs of score 85 keep their order. *)
Lemma score_jobs_endpoint_sorted_witness :
  ∃ response,
    Main.score_jobs offline (request_of six_jobs) = Ok response
    ∧ fit_score <$> Main.scored_jobs response = [89; 87; 85; 85; 78; 76]
    ∧ title <$> with_score 85 (Main.scored_jobs response) = ["J0"; "J5"]
    ∧ StronglySorted by_score_desc (Main.scored_jobs response).
Proof.
  eexists. split; [vm_compute; reflexivity|].
  split; [reflexivity|]. split; [reflexivity|].
  destruct (score_jobs_endpoint_sorted offline (request_of six_jobs)
              _ ltac:(vm_compute; reflexivity))
    as (scored_jobs & _ & Hsorted & _).
  exact Hsorted.
Defined.

(** C6, as the code has it: the job at 0-based position [n] of the batch
    takes the first line of the reply that holds ["Job {n+1}:"]; that line
    is split at every [" - "]; the score is the integer between the first
    and the second colon of the first piece, the explanation is the second
    piece alone, stripped. So ["Job 2: 77 - Strong skills match"] gives
    the second job 77 and ["Strong skills match"]. When no line holds the
    tag, or the first that does has no [" - "] or no integer there, the
    job gets 50 and ["AI analysis completed"]. The score is clamped to
    [0, 100]. *)
Theorem parse_ai_scores_lines :
  (∀ jobs ai_response l n sj,
     AIMatcher._parse_ai_scores jobs ai_response = Ok l →
     l !! n = Some sj →
     let lines := Py.split Py.nl (Py.strip ai_response) in
     fit_score sj = (AIMatcher.score_for lines n).1
     ∧ score_explanation sj = Some (AIMatcher.score_for lines n).2)
  ∧ (∀ lines n,
       AIMatcher.score_for lines n
       = match List.find
                 (Py.contains ("Job " +:+ Py.str_of_nat (n + 1) +:+ ":"))
                 lines with
         | Some line =>
             match Py.split " - " line with
             | part0 :: part1 :: _ =>
                 match Py.split ":" part0 !! 1%nat with
                 | Some segment =>
                     match Py.int (Py.strip segment) with
                     | Some score => (clamp 0 100 score, Py.strip part1)
                     | None => (50, "AI analysis completed")
                     end
                 | None => (50, "AI analysis completed")
                 end
             | _ => (50, "AI analysis completed")
             end
         | None => (50, "AI analysis completed")
         end)
  ∧ (∀ j1 j2,
       well_formed j1 = true → well_formed j2 = true →
       ∃ sj1 sj2,
         AIMatcher._parse_ai_scores [j1; j2] "Job 2: 77 - Strong skills match"
         = Ok [sj1; sj2]
         ∧ fit_score sj2 = 77
         ∧ score_explanation sj2 = Some "Strong skills match"
         ∧ fit_score sj1 = 50
         ∧ score_explanation sj1 = Some "AI analysis completed")
  ∧ (∀ lines n, 0 ≤ (AIMatcher.score_for lines n).1 ≤ 100).
Proof.
  split_and!.
  - intros jobs ai_response l n sj Hl Hsj lines.
    apply _parse_ai_scores_inv in Hl as (_ & Hscores & Hexpls).
    split.
    + by eapply (fmap_seq_lookup fit_score) in Hscores.
    + by eapply (fmap_seq_lookup score_explanation) in Hexpls.
  - apply score_for_cases.
  - intros j1 j2 Hj1 Hj2.
    destruct (_parse_ai_scores_total [j1; j2] "Job 2: 77 - Strong skills match")
      as [l Hl]; [by repeat constructor|].
    pose proof Hl as Hinv.
    apply _parse_ai_scores_inv in Hinv as ([Hframe _] & Hscores & Hexpls).
    apply Forall2_length in Hframe.
    destruct l as [|sj1 [|sj2 [|]]]; try done.
    exists sj1, sj2.
    change ([fit_score sj1; fit_score sj2] = [50; 77]) in Hscores.
    change ([score_explanation sj1; score_explanation sj2]
            = [Some "AI analysis completed"; Some "Strong skills match"])
      in Hexpls.
    injection Hscores as Hs1 Hs2. injection Hexpls as He1 He2. done.
  - apply score_for_range.
Qed.

(** The line of the specification, for two sample jobs. *)
Lemma parse_ai_scores_lines_witness :
  ∃ sj1 sj2,
    AIMatcher._parse_ai_scores [job_a; job_b] "Job 2: 77 - Strong skills match"
    = Ok [sj1; sj2]
    ∧ fit_score sj2 = 77
    ∧ score_explanation sj2 = Some "Strong skills match"
    ∧ fit_score sj1 = 50
    ∧ score_explanation sj1 = Some "AI analysis completed".
Proof.
  apply (proj1 (proj2 (proj2 parse_ai_scores_lines)) job_a job_b); reflexivity.
Defined.

(** C6 as stated fails: on a line with two [" - "] the code keeps the
    text between them, where the claim's cut at the first [" - "] keeps
    all the remaining text. *)
Lemma parse_line_drops_after_second_separator :
  AIMatcher.score_for ["Job 1: 80 - Good - but junior"] 0 = (80, "Good")
  ∧ parse_line_spec "Job 1: 80 - Good - but junior"
    = Some (80, "Good - but junior")
  ∧ AIMatcher.parse_line "Job 1: 80 - Good - but junior"
    ≠ parse_line_spec "Job 1: 80 - Good - but junior".
Proof. split_and!; [reflexivity | reflexivity | discriminate]. Qed.

Lemma mock_score_clamp i :
  AIMatcher.mock_score i
  = clamp 40 95 (85 - 3 * Z.of_nat i + (Z.of_nat i mod 3) * 5).
Proof. unfold AIMatcher.mock_score, clamp. do 3 f_equal. lia. Qed.

(** C7, as the code has it: with no language-model provider configured,
    [score_jobs] scores every list of job records in batches of five, and
    the job at 0-based position [n] gets the mock score of its position
    [i = n mod 5] inside its batch:
    [max(40, min(95, 85 - 3*i + (i % 3)*5))]. *)
Theorem score_jobs_mock_scores e resume_url jobs user_skills user_experience :
  AIMatcher.openai_client e = None →
  AIMatcher.claude_client e = None →
  Forall (λ j, well_formed j = true) jobs →
  ∃ l,
    AIMatcher.score_jobs e resume_url jobs user_skills user_experience = Ok l
    ∧ length l = length jobs
    ∧ ∀ n sj, l !! n = Some sj →
        let i := Z.of_nat (n mod 5) in
        fit_score sj = clamp 40 95 (85 - 3 * i + (i mod 3) * 5).
Proof.
  intros Hopenai Hclaude Hwf.
  destruct (score_jobs_total e resume_url jobs user_skills user_experience Hwf)
    as [l Hl].
  exists l. split; [done|]. split.
  - apply score_jobs_scored in Hl as [Hframe _].
    symmetry. by eapply Forall2_length.
  - intros n sj Hsj i. apply score_jobs_mock in Hl; [|done..].
    eapply (fmap_seq_lookup fit_score) in Hl; [|done].
    rewrite Hl. apply mock_score_clamp.
Qed.

(** Six job records, two batches. *)
Lemma score_jobs_mock_scores_witness :
  ∃ l,
    AIMatcher.score_jobs matcher_offline "https://x/r.pdf" six_jobs
      (Some ["Go"]) "3 years" = Ok l
    ∧ length l = 6%nat
    ∧ ∀ n sj, l !! n = Some sj →
        let i := Z.of_nat (n mod 5) in
        fit_score sj = clamp 40 95 (85 - 3 * i + (i mod 3) * 5).
Proof.
  apply (score_jobs_mock_scores matcher_offline "https://x/r.pdf" six_jobs);
    [reflexivity | reflexivity | repeat constructor].
Defined.

(** C7 as stated fails from the sixth job on: the job at position 5 opens
    the second batch and gets 85, where the formula at [i = 5] gives 80. *)
Lemma mock_score_restarts_each_batch :
  ∃ l sj,
    AIMatcher.score_jobs matcher_offline "https://x/r.pdf" six_jobs
      (Some ["Go"]) "3 years" = Ok l
    ∧ l !! 5%nat = Some sj
    ∧ fit_score sj = 85
    ∧ clamp 40 95 (85 - 3 * 5 + (5 mod 3) * 5) = 80.
Proof.
  eexists _, _. split; [vm_compute; reflexivity|].
  split; [reflexivity|]. split; reflexivity.
Qed.

(** C8, as the code has it: with no provider configured,
    [score(resume_url="https://x/r.pdf", jobs=[job_a, job_b],
    skills=["Go"], experience="3 years")] returns exactly two scored jobs:
    job_b with fit score 87, then job_a with fit score 85. *)
Theorem score_two_jobs_mock e ja jb :
  AIMatcher.openai_client (Main.matcher e) = None →
  AIMatcher.claude_client (Main.matcher e) = None →
  well_formed ja = true →
  well_formed jb = true →
  ∃ scored_a scored_b,
    Main.score_jobs e (request_of [ja; jb])
    = Ok {| Main.scored_jobs := [scored_b; scored_a];
            Main.scored_count := 2 |}
    ∧ frame ja scored_a ∧ fit_score scored_a = 85
    ∧ frame jb scored_b ∧ fit_score scored_b = 87.
Proof.
  intros Hopenai Hclaude Ha Hb.
  assert (Hwf : Forall (λ j, well_formed j = true) [ja; jb])
    by by repeat constructor.
  destruct (score_jobs_total (Main.matcher e) "https://x/r.pdf"
              [ja; jb] (Some ["Go"]) "3 years" Hwf) as [l Hl].
  pose proof (score_jobs_scored _ _ _ _ _ _ Hl) as [Hframe _].
  pose proof (score_jobs_mock _ _ _ _ _ _ Hopenai Hclaude Hl) as Hscores.
  destruct l as [|scored_a [|scored_b [|]]];
    try by apply Forall2_length in Hframe.
  apply Forall2_cons in Hframe as [Hfa Hframe].
  apply Forall2_cons in Hframe as [Hfb _].
  change ([fit_score scored_a; fit_score scored_b] = [85; 87]) in Hscores.
  injection Hscores as Hsa Hsb.
  exists scored_a, scored_b. split_and!; [|done..].
  unfold Main.score_jobs, request_of. simpl. rewrite Hl. simpl.
  by rewrite Hsa, Hsb.
Qed.

(** The scenario on two sample jobs. *)
Lemma score_two_jobs_mock_witness :
  ∃ scored_a scored_b,
    Main.score_jobs offline (request_of [job_a; job_b])
    = Ok {| Main.scored_jobs := [scored_b; scored_a];
            Main.scored_count := 2 |}
    ∧ frame job_a scored_a ∧ fit_score scored_a = 85
    ∧ frame job_b scored_b ∧ fit_score scored_b = 87.
Proof.
  apply (score_two_jobs_mock offline job_a job_b); reflexivity.
Defined.

(** C8 as stated fails: the two fit scores are 85 and 87, which sorted
    give 87 then 85, not 85 and 82. *)
Lemma two_jobs_scores_not_85_82 :
  ∃ response,
    Main.score_jobs offline (request_of [job_a; job_b]) = Ok response
    ∧ fit_score <$> Main.scored_jobs response = [87; 85]
    ∧ fit_score <$> Main.scored_jobs response ≠ [85; 82]
    ∧ 82 ∉ fit_score <$> Main.scored_jobs response.
Proof.
  eexists. split; [vm_compute; reflexivity|].
  split_and!; [reflexivity | discriminate |].
  intros H. vm_compute in H.
  repeat (apply elem_of_cons in H as [H|H]; [discriminate|]).
  by apply elem_of_nil in H.
Qed.

(** ** Further facts on the scraper *)

Lemma truthy_nonempty s : Py.truthy s = true ↔ s ≠ "".
Proof. destruct s; simpl; split; congruence. Qed.

Lemma str_take_length n s : (String.length (Py.str_take n s) ≤ n)%nat.
Proof.
  revert s. induction n as [|n IH]; intros [|c s]; simpl; try lia.
  specialize (IH s). lia.
Qed.

Lemma str_take_truthy n s :
  Py.truthy s = true → Py.truthy (Py.str_take (S n) s) = true.
Proof. by destruct s. Qed.

Lemma make_job_scraped t c d l u s :
  Py.truthy t = true → Py.truthy c = true → Py.truthy d = true →
  s = "jsearch" ∨ s = "indeed" →
  scraped_record (JobScraper.make_job t c d l u s)
  ∧ tagged s (JobScraper.make_job t c d l u s).
Proof.
  intros Ht Hc Hd Hs.
  assert (tagged s (JobScraper.make_job t c d l u s)) as Htag
    by (unfold tagged, JobScraper.make_job; by simplify_map_eq).
  split; [|done].
  unfold scraped_record, nonempty_str, JobScraper.make_job.
  split_and!.
  - exists t. split; [by simplify_map_eq | by apply truthy_nonempty].
  - exists c. split; [by simplify_map_eq | by apply truthy_nonempty].
  - exists (Py.str_take 1000 d). split_and!; [by simplify_map_eq | |].
    + by apply truthy_nonempty, str_take_truthy.
    + apply str_take_length.
  - destruct Hs as [-> | ->]; [by left | by right].
Qed.

Lemma description_truthy company t d :
  Py.truthy (if negb (Py.truthy d)
             then JobScraper.default_description company t else d) = true.
Proof. by destruct d. Qed.

Lemma _parse_jsearch_job_scraped d j :
  JobScraper._parse_jsearch_job d = Ok (Some j) →
  scraped_record j ∧ tagged "jsearch" j.
Proof.
  unfold JobScraper._parse_jsearch_job.
  destruct (item_get_default d "job_title" (PStr "")) as [t| | |]; [|done..].
  destruct (item_get_default d "employer_name" (PStr "")) as [c| | |];
    [|done..].
  destruct (item_get_default d "job_description" (PStr "")) as [ds| | |];
    [|done..].
  cbn [str_method mbind result_bind].
  destruct (Py.truthy (Py.strip t)) eqn:Ht; [|done].
  destruct (Py.truthy (Py.strip c)) eqn:Hc; [|done].
  cbn [negb orb try_except]. intros [= <-].
  apply make_job_scraped; [done | done | apply description_truthy | by left].
Qed.

Lemma _extract_indeed_job_from_card_scraped c j :
  JobScraper._extract_indeed_job_from_card c = Ok (Some j) →
  scraped_record j ∧ tagged "indeed" j.
Proof.
  unfold JobScraper._extract_indeed_job_from_card.
  destruct (Py.truthy (JobScraper.first_text c JobScraper.title_selectors))
    eqn:Ht; [|done].
  destruct (Py.truthy (JobScraper.first_text c JobScraper.company_selectors))
    eqn:Hc; [|done].
  cbn [negb orb try_except]. intros [= <-].
  apply make_job_scraped; [done | done | apply description_truthy | by right].
Qed.

Lemma collect_Forall {A} (P : job → Prop) (parse : A → result (option job))
    items :
  (∀ a j, parse a = Ok (Some j) → P j) →
  ∀ acc, Forall P acc → Forall P (JobScraper.collect parse items acc).
Proof.
  intros Hparse. induction items as [|item rest IH]; intros acc Hacc; simpl.
  - done.
  - destruct (parse item) as [[j|]|] eqn:Hitem; auto.
    apply IH, Forall_app. split; [done|].
    constructor; [|constructor]. by eapply Hparse.
Qed.

Lemma collect_length {A} (parse : A → result (option job)) items : ∀ acc,
  (length (JobScraper.collect parse items acc) ≤ length acc + length items)%nat.
Proof.
  induction items as [|item rest IH]; intros acc; simpl; [lia|].
  destruct (parse item) as [[j|]|].
  - specialize (IH (acc ++ [j])). rewrite length_app in IH. simpl in IH. lia.
  - specialize (IH acc). lia.
  - specialize (IH acc). lia.
Qed.

Lemma _scrape_jsearch_jobs_records e keyword location limit :
  ∃ l, JobScraper._scrape_jsearch_jobs e keyword location limit = Ok l
       ∧ Forall (λ j, scraped_record j ∧ tagged "jsearch" j) l
       ∧ Forall (λ j, well_formed j = true) l
       ∧ (0 ≤ limit → Z.of_nat (length l) ≤ limit).
Proof.
  unfold JobScraper._scrape_jsearch_jobs.
  destruct (JobScraper.has_api_key e); cbn [negb];
    [|exists []; split_and!; [done | done | done | simpl; lia]].
  destruct (JobScraper.jsearch e) as [|status data];
    [exists []; split_and!; [done | done | done | simpl; lia]|].
  destruct (status =? 200);
    [|exists []; split_and!; [done | done | done | simpl; lia]].
  eexists. split_and!; [done| | |].
  - apply collect_Forall; [apply _parse_jsearch_job_scraped | done].
  - apply collect_well_formed; [apply _parse_jsearch_job_well_formed | done].
  - intros Hlimit.
    pose proof (collect_length JobScraper._parse_jsearch_job
                  (Py.slice_to limit data) []) as Hlen.
    pose proof (slice_to_length limit data Hlimit). simpl in Hlen. lia.
Qed.

Lemma _scrape_indeed_jobs_records e keyword location limit :
  ∃ l, JobScraper._scrape_indeed_jobs e keyword location limit = Ok l
       ∧ Forall (λ j, scraped_record j ∧ tagged "indeed" j) l
       ∧ Forall (λ j, well_formed j = true) l
       ∧ (0 ≤ limit → Z.of_nat (length l) ≤ limit).
Proof.
  unfold JobScraper._scrape_indeed_jobs.
  destruct (JobScraper.indeed e) as [| |select];
    [exists []; split_and!; [done | done | done | simpl; lia]..|].
  destruct (JobScraper.first_cards select JobScraper.job_selectors)
    as [|card cards];
    [exists []; split_and!; [done | done | done | simpl; lia]|].
  eexists. split_and!; [done| | |].
  - apply collect_Forall; [apply _extract_indeed_job_from_card_scraped | done].
  - apply collect_well_formed;
      [apply _extract_indeed_job_from_card_well_formed | done].
  - intros Hlimit.
    pose proof (collect_length JobScraper._extract_indeed_job_from_card
                  (Py.slice_to limit (card :: cards)) []) as Hlen.
    pose proof (slice_to_length limit (card :: cards) Hlimit).
    simpl in Hlen. lia.
Qed.

(** The parts of the body of [scrape_jobs]: what each source gave, and
    the list that is deduplicated and cut. *)
Lemma aggregate_parts e keyword location limit :
  ∃ jsearch_jobs indeed_jobs unique,
    (if JobScraper.has_api_key e
     then JobScraper._scrape_jsearch_jobs e keyword location limit
     else Ok []) = Ok jsearch_jobs
    ∧ (if Z.of_nat (length jsearch_jobs) <? limit
       then JobScraper._scrape_indeed_jobs e keyword location
              (limit - Z.of_nat (length jsearch_jobs))
       else Ok []) = Ok indeed_jobs
    ∧ Forall (λ j, scraped_record j ∧ tagged "jsearch" j) jsearch_jobs
    ∧ Forall (λ j, scraped_record j ∧ tagged "indeed" j) indeed_jobs
    ∧ (0 ≤ limit → Z.of_nat (length (jsearch_jobs ++ indeed_jobs)) ≤ limit)
    ∧ JobScraper._remove_duplicates (jsearch_jobs ++ indeed_jobs) = Ok unique
    ∧ JobScraper.aggregate e keyword location limit
      = Ok (Py.slice_to limit unique).
Proof.
  unfold JobScraper.aggregate.
  assert (∃ l1, (if JobScraper.has_api_key e
                 then JobScraper._scrape_jsearch_jobs e keyword location limit
                 else Ok []) = Ok l1
                ∧ Forall (λ j, scraped_record j ∧ tagged "jsearch" j) l1
                ∧ Forall (λ j, well_formed j = true) l1
                ∧ (0 ≤ limit → Z.of_nat (length l1) ≤ limit))
    as (l1 & Hl1 & Hrec1 & Hwf1 & Hlen1).
  { destruct (JobScraper.has_api_key e);
      [apply _scrape_jsearch_jobs_records|].
    exists []. split_and!; [done | done | done | simpl; lia]. }
  assert (∃ l2, (if Z.of_nat (length l1) <? limit
                 then JobScraper._scrape_indeed_jobs e keyword location
                        (limit - Z.of_nat (length l1))
                 else Ok []) = Ok l2
                ∧ Forall (λ j, scraped_record j ∧ tagged "indeed" j) l2
                ∧ Forall (λ j, well_formed j = true) l2
                ∧ (0 ≤ limit → Z.of_nat (length (l1 ++ l2)) ≤ limit))
    as (l2 & Hl2 & Hrec2 & Hwf2 & Hlen2).
  { destruct (Z.ltb_spec (Z.of_nat (length l1)) limit) as [Hlt|Hge].
    - destruct (_scrape_indeed_jobs_records e keyword location
                  (limit - Z.of_nat (length l1))) as (l2 & ? & ? & ? & Hlen).
      exists l2. split_and!; [done | done | done |].
      intros _. rewrite length_app. lia.
    - exists []. split_and!; [done | done | done |].
      intros Hlimit. rewrite app_nil_r. by apply Hlen1. }
  assert (Hwf : Forall (λ j, well_formed j = true) (l1 ++ l2))
    by by apply Forall_app.
  destruct (remove_duplicates_loop_total (l1 ++ l2) ∅ [] Hwf)
    as [unique Hunique].
  exists l1, l2, unique. rewrite Hl1. cbn [mbind result_bind].
  rewrite Hl2. cbn [mbind result_bind].
  unfold JobScraper._remove_duplicates in *. rewrite Hunique.
  by split_and!.
Qed.

(** X1: every record that [scrape_jobs] returns has a non-empty title,
    a non-empty company, a non-empty description of at most 1000
    characters, and the source tag ["jsearch"] or ["indeed"]: no record of
    the mock generator is among them. *)
Theorem scrape_jobs_records e keyword location limit :
  ∃ out, JobScraper.scrape_jobs e keyword location limit = Ok out
         ∧ Forall scraped_record out.
Proof.
  rewrite scrape_jobs_is_aggregate.
  destruct (aggregate_parts e keyword location limit)
    as (l1 & l2 & unique & _ & _ & H1 & H2 & _ & Hunique & ->).
  eexists. split; [done|].
  apply _remove_duplicates_first_occurrences in Hunique as [Hsub _ _ _].
  destruct (slice_to_is_take limit unique) as [n ->].
  apply Forall_take. eapply Forall_sublist_of; [done|].
  apply Forall_app. split; (eapply Forall_impl; [done|]); by intros j [? _].
Qed.

(** X2: for a limit that is not negative the two sources together
    give at most [limit] records before deduplication (the structured API
    at most [limit], Indeed at most the shortfall), so the final
    [unique_jobs[:limit]] removes nothing: [scrape_jobs] returns exactly
    what [_remove_duplicates] makes of the two lists. *)
Theorem scrape_jobs_limit_cuts_nothing e keyword location limit :
  0 ≤ limit →
  ∃ jsearch_jobs indeed_jobs,
    (if JobScraper.has_api_key e
     then JobScraper._scrape_jsearch_jobs e keyword location limit
     else Ok []) = Ok jsearch_jobs
    ∧ (if Z.of_nat (length jsearch_jobs) <? limit
       then JobScraper._scrape_indeed_jobs e keyword location
              (limit - Z.of_nat (length jsearch_jobs))
       else Ok []) = Ok indeed_jobs
    ∧ Z.of_nat (length (jsearch_jobs ++ indeed_jobs)) ≤ limit
    ∧ JobScraper.scrape_jobs e keyword location limit
      = JobScraper._remove_duplicates (jsearch_jobs ++ indeed_jobs).
Proof.
  intros Hlimit. rewrite scrape_jobs_is_aggregate.
  destruct (aggregate_parts e keyword location limit)
    as (l1 & l2 & unique & Hl1 & Hl2 & _ & _ & Hlen & Hunique & ->).
  exists l1, l2. split_and!; [done | done | by apply Hlen |].
  rewrite Hunique. f_equal.
  apply _remove_duplicates_first_occurrences in Hunique as [Hsub _ _ _].
  apply sublist_length in Hsub. specialize (Hlen Hlimit).
  unfold Py.slice_to. destruct (Z.leb_spec 0 limit); [|lia].
  apply take_ge. lia.
Qed.

(** Four items and one card asked for a limit of 5. *)
Lemma scrape_jobs_limit_cuts_nothing_witness :
  ∃ jsearch_jobs indeed_jobs,
    Z.of_nat (length (jsearch_jobs ++ indeed_jobs)) ≤ 5
    ∧ JobScraper.scrape_jobs scraper_both_sources "data engineer" "" 5
      = JobScraper._remove_duplicates (jsearch_jobs ++ indeed_jobs).
Proof.
  destruct (scrape_jobs_limit_cuts_nothing scraper_both_sources
              "data engineer" "" 5 ltac:(lia))
    as (l1 & l2 & _ & _ & Hlen & Hout).
  exists l1, l2. split; [exact Hlen | exact Hout].
Defined.

(** X3: in the list [scrape_jobs] returns the records of the
    structured API come first, those of Indeed after them. *)
Theorem scrape_jobs_jsearch_first e keyword location limit :
  ∃ from_jsearch from_indeed,
    JobScraper.scrape_jobs e keyword location limit
    = Ok (from_jsearch ++ from_indeed)
    ∧ Forall (tagged "jsearch") from_jsearch
    ∧ Forall (tagged "indeed") from_indeed.
Proof.
  rewrite scrape_jobs_is_aggregate.
  destruct (aggregate_parts e keyword location limit)
    as (l1 & l2 & unique & _ & _ & H1 & H2 & _ & Hunique & ->).
  apply _remove_duplicates_first_occurrences in Hunique as [Hsub _ _ _].
  apply sublist_app_r in Hsub as (u1 & u2 & -> & Hu1 & Hu2).
  destruct (slice_to_is_take limit (u1 ++ u2)) as [n ->].
  rewrite take_app. eexists _, _. split; [done|]. split.
  - apply Forall_take. eapply Forall_sublist_of; [done|].
    eapply Forall_impl; [done|]. by intros j [_ ?].
  - apply Forall_take. eapply Forall_sublist_of; [done|].
    eapply Forall_impl; [done|]. by intros j [_ ?].
Qed.

(** X4: when a key is configured and the structured API gives at
    least [limit] records, Indeed is not consulted: the result does not
    depend on what Indeed would answer, and every record is tagged
    ["jsearch"]. The shortfall is counted before deduplication. *)
Theorem scrape_jobs_skips_indeed e r keyword location limit jsearch_jobs :
  JobScraper.has_api_key e = true →
  JobScraper._scrape_jsearch_jobs e keyword location limit = Ok jsearch_jobs →
  limit ≤ Z.of_nat (length jsearch_jobs) →
  JobScraper.scrape_jobs (with_indeed e r) keyword location limit
  = JobScraper.scrape_jobs e keyword location limit
  ∧ ∃ out, JobScraper.scrape_jobs e keyword location limit = Ok out
           ∧ Forall (tagged "jsearch") out.
Proof.
  intros Hkey Hjsearch Hlimit. split.
  - rewrite !scrape_jobs_is_aggregate. unfold JobScraper.aggregate.
    change (JobScraper.has_api_key (with_indeed e r))
      with (JobScraper.has_api_key e).
    change (JobScraper._scrape_jsearch_jobs (with_indeed e r) keyword
              location limit)
      with (JobScraper._scrape_jsearch_jobs e keyword location limit).
    rewrite Hkey, Hjsearch. cbn [mbind result_bind].
    by destruct (Z.ltb_spec (Z.of_nat (length jsearch_jobs)) limit); [lia|].
  - rewrite scrape_jobs_is_aggregate.
    destruct (aggregate_parts e keyword location limit)
      as (l1 & l2 & unique & Hl1 & Hl2 & H1 & _ & _ & Hunique & ->).
    rewrite Hkey, Hjsearch in Hl1. injection Hl1 as <-.
    destruct (Z.ltb_spec (Z.of_nat (length jsearch_jobs)) limit); [lia|].
    injection Hl2 as <-. rewrite app_nil_r in Hunique.
    eexists. split; [done|].
    apply _remove_duplicates_first_occurrences in Hunique as [Hsub _ _ _].
    destruct (slice_to_is_take limit unique) as [n ->].
    apply Forall_take. eapply Forall_sublist_of; [done|].
    eapply Forall_impl; [done|]. by intros j [_ ?].
Qed.

(** A limit of 1 met by the structured API alone. *)
Lemma scrape_jobs_skips_indeed_witness :
  JobScraper.scrape_jobs scraper_both_sources "data engineer" "" 1
  = JobScraper.scrape_jobs scraper_four_items "data engineer" "" 1
  ∧ ∃ out, JobScraper.scrape_jobs scraper_four_items "data engineer" "" 1
           = Ok out
           ∧ Forall (tagged "jsearch") out.
Proof.
  apply (scrape_jobs_skips_indeed scraper_four_items sample_page
           "data engineer" "" 1
           [JobScraper.make_job "Data Engineer" "Acme"
              (JobScraper.default_description "Acme" "Data Engineer")
              (PStr "") (PStr "") "jsearch"]);
    [reflexivity | vm_compute; reflexivity | simpl; lia].
Defined.

(** ** Further facts on deduplication *)

Lemma dedup_key_keyed j :
  (∃ k, JobScraper.dedup_key j = Ok k) ↔ keyed j = true.
Proof.
  unfold keyed, is_str, JobScraper.dedup_key, subscript.
  destruct (j !! "title") as [[t| |? ?|?]|],
    (j !! "company") as [[c| |? ?|?]|]; simpl;
    split; try done; try (by intros [? ?]); by eexists.
Qed.

Lemma remove_duplicates_loop_keyed jobs : ∀ seen unique,
  (∃ out, JobScraper.remove_duplicates_loop seen unique jobs = Ok out)
  ↔ Forall (λ j, keyed j = true) jobs.
Proof.
  induction jobs as [|j rest IH]; intros seen unique; simpl.
  - split; [done | by eexists].
  - rewrite Forall_cons, <- dedup_key_keyed.
    destruct (JobScraper.dedup_key j) as [key|x]; simpl.
    + destruct (decide (key ∈ seen)); rewrite IH;
        (split; [intros ?; split; [by eexists | done] | by intros [_ ?]]).
    + split; [by intros [? ?] | by intros [[? ?] _]].
Qed.

Lemma remove_duplicates_loop_fresh jobs : ∀ seen unique,
  Forall (λ j, keyed j = true) jobs →
  NoDup (JobScraper.dedup_key <$> jobs) →
  (∀ k, k ∈ seen → Ok k ∉ JobScraper.dedup_key <$> jobs) →
  JobScraper.remove_duplicates_loop seen unique jobs = Ok (unique ++ jobs).
Proof.
  induction jobs as [|j rest IH]; intros seen unique Hkeyed Hnodup Hseen;
    simpl.
  - by rewrite app_nil_r.
  - apply Forall_cons in Hkeyed as [Hj Hrest].
    apply dedup_key_keyed in Hj as [key Hkey]. rewrite Hkey. simpl.
    rewrite fmap_cons, Hkey in Hnodup, Hseen.
    apply NoDup_cons in Hnodup as [Hnotin Hnodup].
    destruct (decide (key ∈ seen)) as [Hin|_].
    { exfalso. apply (Hseen key Hin). left. }
    rewrite IH, <- app_assoc; [done..|].
    intros k [->%elem_of_singleton|Hk]%elem_of_union; [done|].
    intros Hbad. apply (Hseen k Hk). by right.
Qed.

(** X5: [_remove_duplicates] returns exactly when every job holds a
    string under ["title"] and under ["company"]; on any other list it
    raises. *)
Theorem _remove_duplicates_returns_iff jobs :
  (∃ unique, JobScraper._remove_duplicates jobs = Ok unique)
  ↔ Forall (λ j, keyed j = true) jobs.
Proof. apply remove_duplicates_loop_keyed. Qed.

(** X6: what [_remove_duplicates] returns is left unchanged by a
    second pass, and is never longer than its input. *)
Theorem _remove_duplicates_idempotent jobs unique :
  JobScraper._remove_duplicates jobs = Ok unique →
  JobScraper._remove_duplicates unique = Ok unique
  ∧ (length unique ≤ length jobs)%nat.
Proof.
  intros Hunique.
  assert (Hkeyed : Forall (λ j, keyed j = true) jobs)
    by (apply (remove_duplicates_loop_keyed jobs ∅ []); by eexists).
  apply _remove_duplicates_first_occurrences in Hunique as [Hsub Hnodup _ _].
  split; [|by apply sublist_length].
  unfold JobScraper._remove_duplicates.
  rewrite remove_duplicates_loop_fresh; [done | | done |].
  - by eapply Forall_sublist_of.
  - intros k Hk. by apply elem_of_empty in Hk.
Qed.

(** The same job twice. *)
Lemma _remove_duplicates_idempotent_witness :
  JobScraper._remove_duplicates [job_a] = Ok [job_a]
  ∧ (length [job_a] ≤ length [job_a; job_a])%nat.
Proof.
  apply (_remove_duplicates_idempotent [job_a; job_a] [job_a]).
  vm_compute. reflexivity.
Defined.

(** ** Further facts on the mock job list *)

Lemma choice_elem seq draw : seq ≠ [] → choice seq draw ∈ seq.
Proof.
  intros Hseq. unfold choice. apply list_elem_of_In, nth_In.
  apply Nat.mod_upper_bound. by destruct seq.
Qed.

Lemma mock_jobs_from_lookup rnd keyword location : ∀ count n i k j,
  JobScraper.mock_jobs_from rnd keyword location n i count !! k = Some j →
  ∃ company job_type loc,
    j = JobScraper.mock_job keyword company job_type loc (i + k)
    ∧ company ∈ JobScraper.companies
    ∧ job_type ∈ JobScraper.job_types
    ∧ (if Py.truthy location then loc = location
       else loc ∈ JobScraper.cities).
Proof.
  induction count as [|count IH]; intros n i k j; simpl; [done|].
  destruct (Py.truthy location) eqn:Hloc.
  - destruct k as [|k]; simpl.
    + intros [= <-]. eexists _, _, _. rewrite Nat.add_0_r.
      split_and!; [done | by apply choice_elem..| done].
    + intros Hj. apply IH in Hj as (c & t & l & -> & ? & ? & ?).
      exists c, t, l. split_and!; [f_equal; lia | done..].
  - destruct k as [|k]; simpl.
    + intros [= <-]. eexists _, _, _. rewrite Nat.add_0_r.
      split_and!; [done | by apply choice_elem..].
    + intros Hj. apply IH in Hj as (c & t & l & -> & ? & ? & ?).
      exists c, t, l. split_and!; [f_equal; lia | done..].
Qed.

(** X7: the record at position [k] of the mock list is a job record
    tagged ["mock"], with source_url [https://example.com/job/{k+1}], a
    title made of one of the five levels and the title-cased keyword, a
    company of the roster, and the requested location when one is given,
    else one of the five cities. *)
Theorem _get_mock_jobs_records rnd keyword location limit k j :
  JobScraper._get_mock_jobs rnd keyword location limit !! k = Some j →
  well_formed j = true
  ∧ tagged "mock" j
  ∧ j !! "source_url"
    = Some (PStr ("https://example.com/job/" +:+ Py.str_of_nat (k + 1)))
  ∧ (∃ job_type, job_type ∈ JobScraper.job_types
       ∧ j !! "title" = Some (PStr (job_type +:+ " " +:+ Py.title keyword)))
  ∧ (∃ company, company ∈ JobScraper.companies
       ∧ j !! "company" = Some (PStr company))
  ∧ (location ≠ "" → j !! "location" = Some (PStr location))
  ∧ (location = "" →
     ∃ city, city ∈ JobScraper.cities ∧ j !! "location" = Some (PStr city)).
Proof.
  unfold JobScraper._get_mock_jobs.
  intros (c & t & l & -> & Hc & Ht & Hl)%mock_jobs_from_lookup.
  unfold well_formed, is_str, tagged, JobScraper.mock_job.
  split_and!; try by simplify_map_eq.
  - exists t. split; [done | by simplify_map_eq].
  - exists c. split; [done | by simplify_map_eq].
  - intros Hloc. apply truthy_nonempty in Hloc. rewrite Hloc in Hl. subst l.
    by simplify_map_eq.
  - intros ->. simpl in Hl. exists l. split; [done | by simplify_map_eq].
Qed.

(** The first mock record for a given location. *)
Lemma _get_mock_jobs_records_witness :
  JobScraper.mock_job "data engineer" "TechCorp" "Junior" "Remote" 0
    !! "source_url" = Some (PStr "https://example.com/job/1").
Proof.
  apply (_get_mock_jobs_records (λ n, n) "data engineer" "Remote" 1 0
           (JobScraper.mock_job "data engineer" "TechCorp" "Junior" "Remote" 0)).
  vm_compute. reflexivity.
Defined.

Lemma mock_jobs_from_urls rnd keyword location : ∀ count n i,
  (λ j, j !! "source_url")
    <$> JobScraper.mock_jobs_from rnd keyword location n i count
  = (λ k, Some (PStr ("https://example.com/job/" +:+ Py.str_of_nat (k + 1))))
      <$> seq i count.
Proof.
  induction count as [|count IH]; intros n i; [done|].
  cbn [JobScraper.mock_jobs_from seq].
  destruct (Py.truthy location); rewrite !fmap_cons, IH;
    replace (seq (i + 1) count) with (seq (S i) count) by (f_equal; lia);
    f_equal; unfold JobScraper.mock_job; by simplify_map_eq.
Qed.

(** X8: the mock list has [min(limit, 15)] records (none for a
    negative limit), at most 15, and their source_urls are pairwise
    distinct, also when (title, company) pairs repeat. *)
Theorem _get_mock_jobs_urls_distinct rnd keyword location limit :
  NoDup ((λ j, j !! "source_url")
           <$> JobScraper._get_mock_jobs rnd keyword location limit)
  ∧ length (JobScraper._get_mock_jobs rnd keyword location limit)
    = Z.to_nat (Z.min limit 15)
  ∧ (length (JobScraper._get_mock_jobs rnd keyword location limit) ≤ 15)%nat.
Proof.
  unfold JobScraper._get_mock_jobs. split_and!.
  - rewrite mock_jobs_from_urls. apply NoDup_fmap_2; [|apply NoDup_seq].
    intros a b [= Heq]. apply (inj (String.app _)) in Heq.
    apply (inj pretty) in Heq. lia.
  - apply mock_jobs_from_mock.
  - rewrite (proj1 (mock_jobs_from_mock _ _ _ _ _ _)). lia.
Qed.

(** ** Further facts on the structured API records *)

Lemma make_job_title_company t c d l u s :
  JobScraper.make_job t c d l u s !! "title" = Some (PStr t)
  ∧ JobScraper.make_job t c d l u s !! "company" = Some (PStr c).
Proof. unfold JobScraper.make_job. split; by simplify_map_eq. Qed.

(** X9: [_parse_jsearch_job] never raises. It keeps an item, with
    title and company stripped, when its title, employer and description
    are strings or absent and title and employer are not blank; every
    other item, one with a [null] description included, gives [None]. *)
Theorem _parse_jsearch_job_keeps d :
  (∀ t c, jsearch_usable d t c →
     ∃ j, JobScraper._parse_jsearch_job d = Ok (Some j)
          ∧ j !! "title" = Some (PStr (Py.strip t))
          ∧ j !! "company" = Some (PStr (Py.strip c)))
  ∧ ((¬ ∃ t c, jsearch_usable d t c) →
     JobScraper._parse_jsearch_job d = Ok None).
Proof.
  unfold jsearch_usable, JobScraper._parse_jsearch_job. split.
  - intros t c (-> & -> & [ds ->] & Ht%truthy_nonempty & Hc%truthy_nonempty).
    cbn [str_method mbind result_bind]. rewrite Ht, Hc.
    cbn [negb orb try_except]. eexists. split; [done|].
    apply make_job_title_company.
  - intros Hnot.
    destruct (item_get_default d "job_title" (PStr "")) as [t| | |];
      [|done..].
    destruct (item_get_default d "employer_name" (PStr "")) as [c| | |];
      [|done..].
    destruct (item_get_default d "job_description" (PStr "")) as [ds| | |];
      [|done..].
    cbn [str_method mbind result_bind].
    destruct (Py.truthy (Py.strip t)) eqn:Ht; [|done].
    destruct (Py.truthy (Py.strip c)) eqn:Hc; [|done].
    exfalso. apply Hnot. exists t, c.
    split_and!; [done | done | by eexists | by apply truthy_nonempty..].
Qed.

(** A title with surrounding blanks is kept stripped; a null description drops the item. *)
Lemma _parse_jsearch_job_keeps_witness :
  (∃ j, JobScraper._parse_jsearch_job (jsearch_item " Data Engineer " "Acme")
        = Ok (Some j)
        ∧ j !! "title" = Some (PStr "Data Engineer"))
  ∧ JobScraper._parse_jsearch_job jsearch_item_null_description = Ok None.
Proof.
  split.
  - destruct (proj1 (_parse_jsearch_job_keeps
                       (jsearch_item " Data Engineer " "Acme"))
                " Data Engineer " "Acme") as (j & Hj & Ht & _).
    { split_and!; [reflexivity | reflexivity | by eexists | done | done]. }
    by exists j.
  - apply (proj2 (_parse_jsearch_job_keeps jsearch_item_null_description)).
    intros (t & c & _ & _ & [ds Hds] & _). vm_compute in Hds. discriminate.
Defined.

(** ** Further facts on the scorer *)

(** X10: [score_jobs] returns exactly when every job is a job record (a
    string under ["title"], ["company"] and ["description"]; a string,
    [None] or no entry under ["location"] and ["source_url"]), whatever
    provider is configured and whatever it answers. For any other job (a
    required key that is missing or holds [None], a list or a dictionary;
    a list or a dictionary under ["location"] or ["source_url"]) it
    raises. *)
Theorem score_jobs_returns_iff e resume_url jobs user_skills user_experience :
  (∃ l, AIMatcher.score_jobs e resume_url jobs user_skills user_experience
        = Ok l)
  ↔ Forall (λ j, well_formed j = true) jobs.
Proof.
  split.
  - intros [l Hl]. eapply scored_well_formed, score_jobs_scored, Hl.
  - apply score_jobs_total.
Qed.

Lemma prompt_job_ready i j :
  (∃ s, AIMatcher.prompt_job i j = Ok s) ↔ prompt_ready j = true.
Proof.
  unfold AIMatcher.prompt_job, prompt_ready, has_key, is_sliceable, subscript.
  destruct (j !! "title") as [t|]; simpl; [|split; [by intros [? ?] | done]].
  destruct (j !! "company") as [c|]; simpl; [|split; [by intros [? ?] | done]].
  destruct (j !! "description") as [[d| |? ?|?]|]; simpl;
    split; try done; try (by intros [? ?]); by eexists.
Qed.

Lemma prompt_jobs_ready jobs : ∀ i prompt,
  (∃ s, AIMatcher.prompt_jobs i jobs prompt = Ok s)
  ↔ Forall (λ j, prompt_ready j = true) jobs.
Proof.
  induction jobs as [|j rest IH]; intros i prompt; simpl.
  - split; [done | by eexists].
  - rewrite Forall_cons, <- (prompt_job_ready i j).
    destruct (AIMatcher.prompt_job i j) as [block|x]; simpl.
    + rewrite IH. split; [intros ?; split; [by eexists | done] | by intros [_ ?]].
    + split; [by intros [? ?] | by intros [[? ?] _]].
Qed.

(** X11: [_create_scoring_prompt] returns exactly when every job has
    the keys ["title"] and ["company"] and a string or a list under
    ["description"] (the values that can be sliced). A title or company
    that is [None], a list or a dictionary is accepted there (it is
    formatted); a missing key, and a description that is [None] or a
    dictionary, raise. *)
Theorem _create_scoring_prompt_returns_iff p jobs :
  (∃ prompt, AIMatcher._create_scoring_prompt p jobs = Ok prompt)
  ↔ Forall (λ j, prompt_ready j = true) jobs.
Proof.
  rewrite <- (prompt_jobs_ready jobs 1 (AIMatcher.prompt_head p)).
  unfold AIMatcher._create_scoring_prompt.
  destruct (AIMatcher.prompt_jobs 1 jobs (AIMatcher.prompt_head p)); simpl;
    split; intros [? ?]; by eexists.
Qed.

Lemma well_formed_prompt_ready j :
  well_formed j = true → prompt_ready j = true.
Proof.
  unfold well_formed, prompt_ready, has_key, is_str, is_sliceable.
  by destruct (j !! "title") as [[]|], (j !! "company") as [[]|],
    (j !! "description") as [[]|].
Qed.

Lemma _create_scoring_prompt_total p jobs :
  Forall (λ j, well_formed j = true) jobs →
  ∃ prompt, AIMatcher._create_scoring_prompt p jobs = Ok prompt.
Proof.
  intros Hwf. unfold AIMatcher._create_scoring_prompt.
  destruct (proj2 (prompt_jobs_ready jobs 1 (AIMatcher.prompt_head p)))
    as [prompt Hprompt].
  { eapply Forall_impl; [done|]. apply well_formed_prompt_ready. }
  rewrite Hprompt. by eexists.
Qed.

(** X12: with no provider configured every fit score [score_jobs]
    returns is one of 85, 87, 89, 76, 78, whatever the length of the list:
    the mock curve restarts with each batch of five. *)
Theorem score_jobs_mock_values e resume_url jobs user_skills user_experience l :
  AIMatcher.openai_client e = None →
  AIMatcher.claude_client e = None →
  AIMatcher.score_jobs e resume_url jobs user_skills user_experience = Ok l →
  Forall (λ sj, fit_score sj ∈ batch_mock_scores) l.
Proof.
  intros Hopenai Hclaude Hl. apply Forall_lookup. intros n sj Hsj.
  apply score_jobs_mock in Hl; [|done..].
  eapply (fmap_seq_lookup fit_score) in Hl; [|done]. rewrite Hl.
  pose proof (Nat.mod_upper_bound n 5 ltac:(lia)) as Hlt.
  destruct (n mod 5)%nat as [|[|[|[|[|k]]]]]; [| | | | |lia];
    vm_compute; repeat first [left | right].
Qed.

(** Six job records, two batches. *)
Lemma score_jobs_mock_values_witness :
  ∃ l,
    AIMatcher.score_jobs matcher_offline "https://x/r.pdf" six_jobs
      (Some ["Go"]) "3 years" = Ok l
    ∧ Forall (λ sj, fit_score sj ∈ batch_mock_scores) l.
Proof.
  eexists. split; [vm_compute; reflexivity|].
  apply (score_jobs_mock_values matcher_offline "https://x/r.pdf" six_jobs
           (Some ["Go"]) "3 years"); [reflexivity | reflexivity |].
  vm_compute. reflexivity.
Defined.

(** ** The provider behind a batch *)

Lemma try_mock_mock jobs :
  try_except (AIMatcher._generate_mock_scores jobs)
    (λ _, AIMatcher._generate_mock_scores jobs)
  = AIMatcher._generate_mock_scores jobs.
Proof. by destruct (AIMatcher._generate_mock_scores jobs) eqn:H. Qed.

Lemma _score_job_batch_active e start p jobs :
  AIMatcher._score_job_batch e start p jobs
  = try_except
      (match active_client e with
       | Some c => AIMatcher._score_with c start p jobs
       | None => AIMatcher._generate_mock_scores jobs
       end)
      (λ _, AIMatcher._generate_mock_scores jobs).
Proof.
  unfold AIMatcher._score_job_batch, active_client.
  by destruct (AIMatcher.openai_client e).
Qed.

Lemma _score_with_raising c start p jobs :
  always_raises c →
  AIMatcher._score_with c start p jobs = AIMatcher._generate_mock_scores jobs.
Proof.
  intros Hc. unfold AIMatcher._score_with.
  destruct (AIMatcher._create_scoring_prompt p jobs) as [prompt|]; [|done].
  cbn [mbind result_bind]. by destruct (Hc start prompt) as [x ->].
Qed.

Lemma _score_job_batch_raising e start p jobs :
  (∀ c, active_client e = Some c → always_raises c) →
  AIMatcher._score_job_batch e start p jobs
  = AIMatcher._generate_mock_scores jobs.
Proof.
  intros Hraise. rewrite _score_job_batch_active.
  destruct (active_client e) as [c|]; [|apply try_mock_mock].
  rewrite _score_with_raising by by apply Hraise. apply try_mock_mock.
Qed.

Lemma score_batches_ext e1 p1 e2 p2 jobs starts : ∀ acc,
  (∀ i batch, AIMatcher._score_job_batch e1 i p1 batch
              = AIMatcher._score_job_batch e2 i p2 batch) →
  AIMatcher.score_batches e1 p1 jobs starts acc
  = AIMatcher.score_batches e2 p2 jobs starts acc.
Proof.
  intros acc Hbatch. revert acc.
  induction starts as [|i rest IH]; intros acc; simpl; [done|].
  rewrite Hbatch.
  destruct (AIMatcher._score_job_batch e2 i p2 _); simpl; [apply IH | done].
Qed.

(** X13: when every call of the client in use raises, [score_jobs]
    behaves exactly as with no provider configured. A failing OpenAI
    client is not replaced by a configured Claude client. *)
Theorem score_jobs_failing_provider e resume_url jobs user_skills
    user_experience :
  (∀ c, active_client e = Some c → always_raises c) →
  AIMatcher.score_jobs e resume_url jobs user_skills user_experience
  = AIMatcher.score_jobs (without_providers e) resume_url jobs user_skills
      user_experience.
Proof.
  intros Hraise. unfold AIMatcher.score_jobs. f_equal.
  apply score_batches_ext. intros i batch.
  rewrite (_score_job_batch_raising e) by done.
  rewrite (_score_job_batch_raising (without_providers e)); [done|].
  by intros c Hc.
Qed.

(** OpenAI down, Claude configured: the mock scores. *)
Lemma score_jobs_failing_provider_witness :
  AIMatcher.score_jobs matcher_openai_down "https://x/r.pdf" six_jobs
    (Some ["Go"]) "3 years"
  = AIMatcher.score_jobs (without_providers matcher_openai_down)
      "https://x/r.pdf" six_jobs (Some ["Go"]) "3 years".
Proof.
  apply (score_jobs_failing_provider matcher_openai_down).
  intros c [= <-] start prompt. by eexists.
Defined.

(** X14: when an OpenAI client is configured the result of
    [score_jobs] does not depend on the Claude client: it is never
    called. *)
Theorem score_jobs_openai_priority e claude resume_url jobs user_skills
    user_experience :
  is_Some (AIMatcher.openai_client e) →
  AIMatcher.score_jobs (with_claude e claude) resume_url jobs user_skills
    user_experience
  = AIMatcher.score_jobs e resume_url jobs user_skills user_experience.
Proof.
  intros [c Hc]. unfold AIMatcher.score_jobs. f_equal.
  apply score_batches_ext. intros i batch.
  unfold AIMatcher._score_job_batch.
  change (AIMatcher.openai_client (with_claude e claude))
    with (AIMatcher.openai_client e).
  by rewrite Hc.
Qed.

(** Swapping the Claude client changes nothing. *)
Lemma score_jobs_openai_priority_witness :
  AIMatcher.score_jobs
    (with_claude (matcher_answering "Job 1: 64 - Fair match")
       (Some failing_client))
    "https://x/r.pdf" [job_a; job_b] (Some ["Go"]) "3 years"
  = AIMatcher.score_jobs (matcher_answering "Job 1: 64 - Fair match")
      "https://x/r.pdf" [job_a; job_b] (Some ["Go"]) "3 years".
Proof.
  apply (score_jobs_openai_priority
           (matcher_answering "Job 1: 64 - Fair match")).
  by eexists.
Defined.

(** ** Replies of the provider *)

Lemma score_batches_fmap {B} (proj : ScoredJob → B) (g : nat → B) e p jobs
    starts : ∀ acc l,
  (∀ i batch l', AIMatcher._score_job_batch e i p batch = Ok l' →
                 proj <$> l' = g <$> seq 0 (length batch)) →
  AIMatcher.score_batches e p jobs starts acc = Ok l →
  proj <$> l
  = (proj <$> acc)
      ++ (g <$> concat ((λ i, seq 0 (length (batch_at jobs i))) <$> starts)).
Proof.
  intros acc l Hbatch. revert acc l.
  induction starts as [|i rest IH]; intros acc l; simpl.
  - intros [= <-]. by rewrite app_nil_r.
  - destruct (AIMatcher._score_job_batch e i p _) as [batch_scores|] eqn:Hb;
      simpl; [|done].
    intros ->%IH. apply Hbatch in Hb.
    by rewrite !fmap_app, Hb, app_assoc.
Qed.

Lemma score_jobs_fmap {B} (proj : ScoredJob → B) (g : nat → B) e resume_url
    jobs user_skills user_experience l :
  (∀ i p batch l', AIMatcher._score_job_batch e i p batch = Ok l' →
                   proj <$> l' = g <$> seq 0 (length batch)) →
  AIMatcher.score_jobs e resume_url jobs user_skills user_experience = Ok l →
  proj <$> l = (λ n, g (n mod 5)%nat) <$> seq 0 (length jobs).
Proof.
  unfold AIMatcher.score_jobs. intros Hbatch Hl.
  apply try_mock_inv in Hl; [|apply score_batches_total].
  eapply (score_batches_fmap proj g) in Hl; [|by intros; eapply Hbatch].
  rewrite Hl. simpl.
  destruct (range_step_5 (length jobs)) as (m & -> & Hm).
  rewrite batch_positions, <- list_fmap_compose.
  by replace ((m * 5) `min` length jobs)%nat with (length jobs) by lia.
Qed.

Lemma _score_job_batch_answering e c reply start p jobs l :
  active_client e = Some c → always_answers c reply →
  AIMatcher._score_job_batch e start p jobs = Ok l →
  AIMatcher._parse_ai_scores jobs reply = Ok l.
Proof.
  intros Hactive Hreply Hl.
  pose proof (scored_well_formed _ _ (_score_job_batch_scored _ _ _ _ _ Hl))
    as Hwf.
  rewrite _score_job_batch_active, Hactive in Hl.
  apply try_mock_inv in Hl.
  2: { intros _. unfold AIMatcher._score_with. by apply try_mock_total. }
  unfold AIMatcher._score_with in Hl.
  destruct (_create_scoring_prompt_total p jobs Hwf) as [prompt Hp].
  rewrite Hp in Hl. cbn [mbind result_bind] in Hl. rewrite Hreply in Hl.
  cbn [mbind result_bind] in Hl.
  destruct (_parse_ai_scores_total jobs reply Hwf) as [l' Hl'].
  rewrite Hl' in Hl. simpl in Hl. by rewrite Hl'.
Qed.

Lemma reported_score_for lines n sj :
  fit_score sj = (AIMatcher.score_for lines n).1 →
  score_explanation sj = Some (AIMatcher.score_for lines n).2 →
  reported lines n sj.
Proof.
  unfold reported, AIMatcher.score_for, clamp.
  destruct (List.find _ lines) as [line|]; [|done].
  by destruct (AIMatcher.parse_line line) as [[score explanation]|].
Qed.

Lemma reported_in_range lines n sj : reported lines n sj → in_range sj.
Proof.
  unfold reported, in_range, clamp.
  destruct (List.find _ lines) as [line|]; [|intros [-> _]; lia].
  destruct (AIMatcher.parse_line line) as [[score explanation]|];
    intros [-> _]; lia.
Qed.

Lemma scored_length jobs l : scored jobs l → length l = length jobs.
Proof. intros [Hframe _]. symmetry. by eapply Forall2_length. Qed.

(** C4: [score_jobs] returns one scored job per job record, and every
    scored job it returns, whichever path scored it, has an integer fit
    score between 0 and 100. With a provider that answers, the scored job
    of each position carries the score the reply reports for it, clamped
    into [0, 100] (not rejected), or 50 when the reply has no line for it
    or one that does not parse; so does every scored job that
    [_parse_ai_scores] returns. The scored jobs of the mock generator have
    scores in [0, 100] too. *)
Theorem fit_score_in_range :
  (∀ e resume_url jobs user_skills user_experience l,
     AIMatcher.score_jobs e resume_url jobs user_skills user_experience = Ok l →
     length l = length jobs ∧ Forall in_range l)
  ∧ (∀ e resume_url jobs user_skills user_experience,
       Forall (λ j, well_formed j = true) jobs →
       ∃ l, AIMatcher.score_jobs e resume_url jobs user_skills user_experience
            = Ok l)
  ∧ (∀ e c reply resume_url jobs user_skills user_experience,
       active_client e = Some c →
       always_answers c reply →
       Forall (λ j, well_formed j = true) jobs →
       ∃ l, AIMatcher.score_jobs e resume_url jobs user_skills user_experience
            = Ok l
            ∧ length l = length jobs
            ∧ ∀ n sj, l !! n = Some sj →
                reported (Py.split Py.nl (Py.strip reply)) (n mod 5) sj)
  ∧ (∀ jobs ai_response,
       Forall (λ j, well_formed j = true) jobs →
       ∃ l, AIMatcher._parse_ai_scores jobs ai_response = Ok l
            ∧ length l = length jobs
            ∧ ∀ n sj, l !! n = Some sj →
                reported (Py.split Py.nl (Py.strip ai_response)) n sj
                ∧ in_range sj)
  ∧ (∀ jobs ai_response l,
       AIMatcher._parse_ai_scores jobs ai_response = Ok l →
       length l = length jobs ∧ Forall in_range l)
  ∧ (∀ jobs,
       Forall (λ j, well_formed j = true) jobs →
       ∃ l, AIMatcher._generate_mock_scores jobs = Ok l)
  ∧ (∀ jobs l,
       AIMatcher._generate_mock_scores jobs = Ok l →
       length l = length jobs ∧ Forall in_range l).
Proof.
  split_and!.
  - intros e resume_url jobs user_skills user_experience l Hl.
    apply score_jobs_scored in Hl.
    split; [by apply scored_length | by destruct Hl].
  - apply score_jobs_total.
  - intros e c reply resume_url jobs user_skills user_experience Hactive
      Hreply Hwf.
    destruct (score_jobs_total e resume_url jobs user_skills user_experience
                Hwf) as [l Hl].
    exists l. split; [done|].
    split; [by eapply scored_length, score_jobs_scored|].
    set (lines := Py.split Py.nl (Py.strip reply)).
    assert (Hscores : fit_score <$> l
              = (λ n, (AIMatcher.score_for lines (n mod 5)).1)
                  <$> seq 0 (length jobs)).
    { eapply (score_jobs_fmap fit_score
                (λ k, (AIMatcher.score_for lines k).1)); [|done].
      intros i p batch l' Hl'.
      eapply _score_job_batch_answering in Hl'; [|done..].
      by apply _parse_ai_scores_inv in Hl' as (_ & ? & _). }
    assert (Hexpls : score_explanation <$> l
              = (λ n, Some (AIMatcher.score_for lines (n mod 5)).2)
                  <$> seq 0 (length jobs)).
    { eapply (score_jobs_fmap score_explanation
                (λ k, Some (AIMatcher.score_for lines k).2)); [|done].
      intros i p batch l' Hl'.
      eapply _score_job_batch_answering in Hl'; [|done..].
      by apply _parse_ai_scores_inv in Hl' as (_ & _ & ?). }
    intros n sj Hsj. apply reported_score_for.
    + by apply (fmap_seq_lookup _ _ _ _ _ _ Hscores).
    + by apply (fmap_seq_lookup _ _ _ _ _ _ Hexpls).
  - intros jobs ai_response Hwf.
    destruct (_parse_ai_scores_total jobs ai_response Hwf) as [l Hl].
    exists l. split; [done|].
    apply _parse_ai_scores_inv in Hl as (Hscored & Hscores & Hexpls).
    split; [by apply scored_length|].
    intros n sj Hsj.
    assert (reported (Py.split Py.nl (Py.strip ai_response)) n sj) as Hrep.
    { apply reported_score_for.
      - by apply (fmap_seq_lookup _ _ _ _ _ _ Hscores).
      - by apply (fmap_seq_lookup _ _ _ _ _ _ Hexpls). }
    split; [done | by eapply reported_in_range].
  - intros jobs ai_response l Hl.
    apply _parse_ai_scores_inv in Hl as (Hscored & _).
    split; [by apply scored_length | by destruct Hscored].
  - apply _generate_mock_scores_total.
  - intros jobs l Hl. apply _generate_mock_scores_inv in Hl as (Hscored & _).
    split; [by apply scored_length | by destruct Hscored].
Qed.

(** Reported scores of 150 and -5: the two scored jobs that [score_jobs]
    returns have the scores 100 and 0. *)
Lemma fit_score_in_range_witness :
  ∃ l,
    AIMatcher.score_jobs (matcher_answering reply_out_of_range)
      "https://x/r.pdf" [job_a; job_b] (Some ["Go"]) "3 years" = Ok l
    ∧ length l = 2%nat
    ∧ (∀ sj, l !! 0%nat = Some sj → fit_score sj = 100)
    ∧ (∀ sj, l !! 1%nat = Some sj → fit_score sj = 0).
Proof.
  destruct (proj1 (proj2 (proj2 fit_score_in_range))
              (matcher_answering reply_out_of_range)
              (λ _ _, Ok reply_out_of_range) reply_out_of_range
              "https://x/r.pdf" [job_a; job_b] (Some ["Go"]) "3 years")
    as (l & Hl & Hlen & Hreported);
    [reflexivity | by intros ? ? | by repeat constructor |].
  exists l. split; [exact Hl|]. split; [exact Hlen|]. split.
  - intros sj Hsj. exact (proj1 (Hreported 0%nat sj Hsj)).
  - intros sj Hsj. exact (proj1 (Hreported 1%nat sj Hsj)).
Defined.

(** X15: the tags of a reply count inside a batch. With a client
    that answers [reply] to every call, the job at position [n] of a list
    of job records gets the score and explanation that [reply] gives for
    ["Job {n mod 5 + 1}:"]. *)
Theorem score_jobs_fixed_reply e c reply resume_url jobs user_skills
    user_experience :
  active_client e = Some c →
  always_answers c reply →
  Forall (λ j, well_formed j = true) jobs →
  let lines := Py.split Py.nl (Py.strip reply) in
  ∃ l,
    AIMatcher.score_jobs e resume_url jobs user_skills user_experience = Ok l
    ∧ fit_score <$> l
      = (λ n, (AIMatcher.score_for lines (n mod 5)).1) <$> seq 0 (length jobs)
    ∧ score_explanation <$> l
      = (λ n, Some (AIMatcher.score_for lines (n mod 5)).2)
          <$> seq 0 (length jobs).
Proof.
  intros Hactive Hreply Hwf lines.
  destruct (score_jobs_total e resume_url jobs user_skills user_experience Hwf)
    as [l Hl].
  exists l. split; [done|]. split.
  - eapply (score_jobs_fmap fit_score
              (λ k, (AIMatcher.score_for lines k).1)); [|done].
    intros i p batch l' Hl'.
    eapply _score_job_batch_answering in Hl'; [|done..].
    by apply _parse_ai_scores_inv in Hl' as (_ & ? & _).
  - eapply (score_jobs_fmap score_explanation
              (λ k, Some (AIMatcher.score_for lines k).2)); [|done].
    intros i p batch l' Hl'.
    eapply _score_job_batch_answering in Hl'; [|done..].
    by apply _parse_ai_scores_inv in Hl' as (_ & _ & ?).
Qed.

(** A reply that rates job 1 only: the first job of each batch gets 64. *)
Lemma score_jobs_fixed_reply_witness :
  ∃ l,
    AIMatcher.score_jobs (matcher_answering "Job 1: 64 - Fair match")
      "https://x/r.pdf" six_jobs (Some ["Go"]) "3 years" = Ok l
    ∧ fit_score <$> l = [64; 50; 50; 50; 50; 64].
Proof.
  destruct (score_jobs_fixed_reply (matcher_answering "Job 1: 64 - Fair match")
              (λ _ _, Ok "Job 1: 64 - Fair match") "Job 1: 64 - Fair match"
              "https://x/r.pdf" six_jobs (Some ["Go"]) "3 years")
    as (l & Hl & Hscores & _);
    [reflexivity | by intros ? ? | by repeat constructor |].
  exists l. split; [exact Hl | exact Hscores].
Defined.

(** A tag is found only in a line that holds its first four characters. *)
Lemma prefix_app_l a b s :
  String.prefix (a +:+ b) s = true → String.prefix a s = true.
Proof.
  revert s. induction a as [|x a IH]; intros s; simpl.
  - by destruct s.
  - destruct s as [|y s]; simpl; [done|].
    destruct (Ascii.ascii_dec x y); [apply IH | done].
Qed.

Lemma contains_app_l a b s :
  Py.contains (a +:+ b) s = true → Py.contains a s = true.
Proof.
  induction s as [|y s IH]; cbn [Py.contains].
  - rewrite !orb_false_r. apply prefix_app_l.
  - intros [H|H]%orb_true_iff; apply orb_true_iff;
      [left; by eapply prefix_app_l | right; by apply IH].
Qed.

Lemma find_no_tag lines n :
  Forall (λ line, Py.contains "Job " line = false) lines →
  List.find (Py.contains ("Job " +:+ Py.str_of_nat (n + 1) +:+ ":")) lines
  = None.
Proof.
  intros Hlines. induction Hlines as [|line lines Hline _ IH];
    [reflexivity|].
  cbn [List.find].
  destruct (Py.contains ("Job " +:+ Py.str_of_nat (n + 1) +:+ ":") line)
    eqn:Htag; [|exact IH].
  apply (contains_app_l "Job ") in Htag. congruence.
Qed.

(** X16: when no line of the reply holds ["Job "], every job record of
    the batch gets the score 50 and ["AI analysis completed"]. *)
Theorem _parse_ai_scores_no_tag jobs ai_response :
  Forall (λ line, Py.contains "Job " line = false)
    (Py.split Py.nl (Py.strip ai_response)) →
  Forall (λ j, well_formed j = true) jobs →
  ∃ l,
    AIMatcher._parse_ai_scores jobs ai_response = Ok l
    ∧ length l = length jobs
    ∧ Forall (λ sj, fit_score sj = 50
                    ∧ score_explanation sj = Some "AI analysis completed") l.
Proof.
  intros Hlines Hwf.
  destruct (_parse_ai_scores_total jobs ai_response Hwf) as [l Hl].
  exists l. split; [done|].
  apply _parse_ai_scores_inv in Hl as ([Hframe _] & Hscores & Hexpls).
  split; [symmetry; by eapply Forall2_length|].
  apply Forall_lookup. intros n sj Hsj.
  eapply (fmap_seq_lookup fit_score) in Hscores; [|done].
  eapply (fmap_seq_lookup score_explanation) in Hexpls; [|done].
  rewrite Hscores, Hexpls. unfold AIMatcher.score_for.
  by rewrite find_no_tag.
Qed.

(** A reply without any tag. *)
Lemma _parse_ai_scores_no_tag_witness :
  ∃ l,
    AIMatcher._parse_ai_scores [job_a; job_b] "I cannot rate these postings."
    = Ok l
    ∧ length l = 2%nat
    ∧ Forall (λ sj, fit_score sj = 50
                    ∧ score_explanation sj = Some "AI analysis completed") l.
Proof.
  apply (_parse_ai_scores_no_tag [job_a; job_b]
           "I cannot rate these postings.");
    repeat constructor.
Defined.

(** ** The mock score curve *)

Lemma mock_score_floor i : (18 ≤ i)%nat → AIMatcher.mock_score i = 40.
Proof.
  intros Hi. unfold AIMatcher.mock_score.
  pose proof (Z.mod_pos_bound (Z.of_nat i) 3 ltac:(lia)).
  pose proof (Z_div_mod_eq_full (Z.of_nat i) 3). lia.
Qed.

(** X17: the mock scores of [_generate_mock_scores] lie between 40
    and 95; the first is 85 and from position 18 on all are 40; each
    carries the fixed explanation. *)
Theorem _generate_mock_scores_curve jobs l n sj :
  AIMatcher._generate_mock_scores jobs = Ok l →
  l !! n = Some sj →
  40 ≤ fit_score sj ≤ 95
  ∧ (n = 0%nat → fit_score sj = 85)
  ∧ ((18 ≤ n)%nat → fit_score sj = 40)
  ∧ score_explanation sj = Some AIMatcher.mock_explanation.
Proof.
  unfold AIMatcher._generate_mock_scores. rewrite mock_scores_from_eq.
  intros (l' & -> & _ & Hscores & Hexpls)%scored_from_inv Hsj.
  rewrite app_nil_l in Hsj.
  eapply (fmap_seq_lookup fit_score) in Hscores; [|done].
  eapply (fmap_seq_lookup score_explanation) in Hexpls; [|done].
  cbn beta in Hscores, Hexpls. cbn [fst snd] in Hscores, Hexpls.
  rewrite Hscores, Hexpls.
  split; [apply mock_score_range|].
  split; [by intros ->|]. split; [apply mock_score_floor | done].
Qed.

(** Twenty jobs: the last one is at the floor. *)
Lemma _generate_mock_scores_curve_witness :
  ∃ l sj,
    AIMatcher._generate_mock_scores (replicate 20 job_a) = Ok l
    ∧ l !! 19%nat = Some sj
    ∧ fit_score sj = 40.
Proof.
  eexists _, _. split; [vm_compute; reflexivity|]. split; [reflexivity|].
  refine (proj1 (proj2 (proj2 (_generate_mock_scores_curve
                                 (replicate 20 job_a) _ 19 _ _ _))) _);
    [vm_compute; reflexivity | reflexivity | lia].
Defined.

(** ** Further facts on the endpoints *)

(** X18: the [scrape_jobs] endpoint returns for every keyword that is
    not blank, echoing the keyword and location as they were sent with
    the count of the records. A blank keyword is answered with status
    500: the 400 raised inside the [try] is caught by the endpoint's own
    handler. *)
Theorem scrape_jobs_endpoint_keyword e keyword location limit :
  (Py.strip keyword = "" →
     ∃ detail,
       Main.scrape_jobs e keyword location limit
       = Raise (HTTPException 500 detail))
  ∧ (Py.strip keyword ≠ "" →
       ∃ response,
         Main.scrape_jobs e keyword location limit = Ok response
         ∧ Main.count response = length (Main.jobs response)
         ∧ Main.keyword response = keyword
         ∧ Main.location response = location).
Proof.
  unfold Main.scrape_jobs. split.
  - intros ->. by eexists.
  - intros Hkeyword%truthy_nonempty. rewrite Hkeyword.
    destruct (scrape_jobs_returns (Main.scraper e) (Py.strip keyword)
                (Py.strip location) (Z.min limit 50)) as (l & -> & _).
    by eexists.
Qed.

(** A blank keyword, and a keyword echoed with its blanks. *)
Lemma scrape_jobs_endpoint_keyword_witness :
  (∃ detail,
     Main.scrape_jobs offline "   " "Remote" 5
     = Raise (HTTPException 500 detail))
  ∧ (∃ response,
       Main.scrape_jobs offline " data engineer " "Remote" 5 = Ok response
       ∧ Main.keyword response = " data engineer ").
Proof.
  split.
  - apply (proj1 (scrape_jobs_endpoint_keyword offline "   " "Remote" 5)).
    reflexivity.
  - destruct (proj2 (scrape_jobs_endpoint_keyword offline " data engineer "
                       "Remote" 5)) as (response & ? & _ & ? & _);
      [discriminate|].
    by exists response.
Defined.

(** X19: the [score_jobs] endpoint returns exactly when the job list
    is not empty, the resume URL is not empty and every job is a job
    record (the three strings, and a string, [None] or no entry under
    ["location"] and ["source_url"]); it then returns as many scored jobs as jobs, with that count.
    Whatever it raises, the two validation errors included, has status
    500. *)
Theorem score_jobs_endpoint_returns_iff e request :
  ((∃ response, Main.score_jobs e request = Ok response)
   ↔ Main.request_jobs request ≠ []
     ∧ Main.resume_url request ≠ ""
     ∧ Forall (λ j, well_formed j = true) (Main.request_jobs request))
  ∧ (∀ response,
       Main.score_jobs e request = Ok response →
       Main.scored_count response = length (Main.request_jobs request)
       ∧ length (Main.scored_jobs response)
         = length (Main.request_jobs request))
  ∧ (∀ x,
       Main.score_jobs e request = Raise x →
       ∃ detail, x = HTTPException 500 detail).
Proof.
  unfold Main.score_jobs.
  destruct (Main.request_jobs request) as [|j jobs] eqn:Hjobs.
  { split_and!; [split; [by intros [? ?] | by intros [? _]] | done |].
    intros x [= <-]. by eexists. }
  destruct (Py.truthy (Main.resume_url request)) eqn:Hurl; cbn [negb].
  2: { split_and!; [split; [by intros [? ?] |] | done |].
       - intros (_ & Hne & _). apply truthy_nonempty in Hne. congruence.
       - intros x [= <-]. by eexists. }
  apply truthy_nonempty in Hurl.
  destruct (AIMatcher.score_jobs (Main.matcher e) (Main.resume_url request)
              (j :: jobs) (Some (default [] (Main.user_skills request)))
              (default "" (Main.user_experience request)))
    as [l|x'] eqn:Hl; cbn [mbind result_bind try_except].
  - pose proof (score_jobs_scored _ _ _ _ _ _ Hl) as Hscored.
    split_and!.
    + split; [intros _ | by eexists].
      split_and!; [done | done | by eapply scored_well_formed].
    + intros response [= <-]. cbn [Main.scored_count Main.scored_jobs].
      destruct Hscored as [Hframe _]. apply Forall2_length in Hframe.
      pose proof (Permutation_length (sort_reverse_perm fit_score l)).
      split; congruence.
    + done.
  - split_and!; [split; [by intros [? ?] |] | done |].
    + intros (_ & _ & Hwf).
      destruct (score_jobs_total (Main.matcher e) (Main.resume_url request)
                  (j :: jobs) (Some (default [] (Main.user_skills request)))
                  (default "" (Main.user_experience request)) Hwf) as [l Hl'].
      congruence.
    + intros x [= <-]. by eexists.
Qed.

(** An empty job list is answered with status 500. *)
Lemma score_jobs_endpoint_returns_iff_witness :
  ∃ detail,
    Main.score_jobs offline (request_of []) = Raise (HTTPException 500 detail).
Proof.
  destruct (proj2 (proj2 (score_jobs_endpoint_returns_iff offline
                            (request_of []))) _ eq_refl) as [detail Hdetail].
  exists detail. by rewrite <- Hdetail.
Defined.

(** X20: what [scrape_jobs] returns can always be scored:
    [score_jobs] on it returns one scored job per record, fields
    unchanged. The list of the mock generator can be scored too. *)
Theorem scrape_then_score se me keyword location limit resume_url user_skills
    user_experience :
  (∃ jobs l,
     JobScraper.scrape_jobs se keyword location limit = Ok jobs
     ∧ AIMatcher.score_jobs me resume_url jobs user_skills user_experience
       = Ok l
     ∧ Forall2 frame jobs l)
  ∧ (∃ l,
       AIMatcher.score_jobs me resume_url
         (JobScraper._get_mock_jobs (JobScraper.draws se) keyword location
            limit)
         user_skills user_experience = Ok l).
Proof.
  split.
  - destruct (scrape_jobs_returns se keyword location limit)
      as (jobs & Hjobs & Hwf & _).
    destruct (score_jobs_total me resume_url jobs user_skills user_experience
                Hwf) as [l Hl].
    exists jobs, l. split_and!; [done | done |].
    by apply score_jobs_scored in Hl as [? _].
  - apply score_jobs_total, Forall_lookup. intros k j.
    unfold JobScraper._get_mock_jobs.
    intros (c & t & l & -> & _)%mock_jobs_from_lookup.
    unfold well_formed, is_str, JobScraper.mock_job. by simplify_map_eq.
Qed.

Lemma try_except_score_with c start p jobs :
  try_except (AIMatcher._score_with c start p jobs)
    (λ _, AIMatcher._generate_mock_scores jobs)
  = AIMatcher._score_with c start p jobs.
Proof.
  unfold AIMatcher._score_with.
  destruct (_ ← AIMatcher._create_scoring_prompt p jobs; _) as [l|x];
    [done|].
  cbn [try_except]. by destruct (AIMatcher._generate_mock_scores jobs).
Qed.

(** X21: a key counts as set when it is a non-empty string.
    [test_connection] names OpenAI when its key is set, Claude when only
    Claude's is, and the mock data when neither is; and
    [_score_job_batch] scores a batch with the client that is named, or
    with the mock generator when none is. *)
Theorem test_connection_names_client openai_key claude_key openai claude
    reachable :
  let e := AIMatcher.init openai_key claude_key openai claude reachable in
  (AIMatcher.key_set openai_key = true →
     AIMatcher.test_connection e = "OpenAI API connected"
     ∧ ∀ start p jobs,
         AIMatcher._score_job_batch e start p jobs
         = AIMatcher._score_with openai start p jobs)
  ∧ (AIMatcher.key_set openai_key = false →
     AIMatcher.key_set claude_key = true →
       AIMatcher.test_connection e = "Claude API connected"
       ∧ ∀ start p jobs,
           AIMatcher._score_job_batch e start p jobs
           = AIMatcher._score_with claude start p jobs)
  ∧ (AIMatcher.key_set openai_key = false →
     AIMatcher.key_set claude_key = false →
       AIMatcher.test_connection e = "No AI API configured - using mock data"
       ∧ ∀ start p jobs,
           AIMatcher._score_job_batch e start p jobs
           = AIMatcher._generate_mock_scores jobs).
Proof.
  unfold AIMatcher.init, AIMatcher.test_connection, AIMatcher._score_job_batch.
  simpl. split_and!.
  - intros ->. split; [done|]. intros. apply try_except_score_with.
  - intros -> ->. split; [done|]. intros. apply try_except_score_with.
  - intros -> ->. split; [done|]. intros. apply try_mock_mock.
Qed.

(** An empty OpenAI key and a Claude key: the batches go to Claude. *)
Lemma test_connection_names_client_witness :
  AIMatcher.test_connection
    (AIMatcher.init (Some "") (Some "sk-ant") failing_client
       (answering_client "Job 1: 64 - Fair match") true)
  = "Claude API connected"
  ∧ ∀ start p jobs,
      AIMatcher._score_job_batch
        (AIMatcher.init (Some "") (Some "sk-ant") failing_client
           (answering_client "Job 1: 64 - Fair match") true) start p jobs
      = AIMatcher._score_with (answering_client "Job 1: 64 - Fair match")
          start p jobs.
Proof.
  apply (proj1 (proj2 (test_connection_names_client (Some "") (Some "sk-ant")
                         failing_client
                         (answering_client "Job 1: 64 - Fair match") true)));
    reflexivity.
Defined.
